(** * GAIA scaffolding: the generated authentication backend and sign-up form

    [setup_project.py] writes two programs to disk as templates:
    [backend/app/main.py] (a FastAPI service with an in-memory account
    dictionary) and [streamlit_app/app.py] (a Streamlit form).  This file
    embeds the logic of both templates, and of the script's own directory
    and file creation, and states their properties.

    Conventions of the embedding.
    - A Python [str] is a Rocq [string]; each character stands for one code
      point below 256, so [String.length] is Python's [len] and [lower] below
      is Python's [str.lower] on that range.
    - The dictionary [users_db] is a [gmap] from the e-mail to the stored
      record; the handlers run in a small state-and-exception monad over it.
    - [datetime.utcnow()] and the random salt drawn by the password context
      are explicit inputs of the handler that uses them.
    - [passlib]'s [CryptContext] is an interface ([CryptContext] below); the
      handlers are generic in it. *)

From stdpp Require Import base option list strings gmap.
From Stdlib Require Import Ascii String NArith ZArith Bool.

Local Open Scope string_scope.

(** ** Python string primitives used by the templates *)

Module PyStr.

(** [s.startswith(p)]. *)
Fixpoint startswith (p s : string) : bool :=
  match p, s with
  | EmptyString, _ => true
  | String _ _, EmptyString => false
  | String a p', String b s' => Ascii.eqb a b && startswith p' s'
  end.

(** [sub in s] for two strings: [sub] occurs at some offset of [s]. *)
Fixpoint contains (sub s : string) : bool :=
  startswith sub s ||
  match s with
  | EmptyString => false
  | String _ s' => contains sub s'
  end.

(** [s.split(sep)] for a one-character separator.  The result always has at
    least one piece; the [nil] branch below is never taken. *)
Fixpoint split (sep : ascii) (s : string) : list string :=
  match s with
  | EmptyString => [EmptyString]
  | String c s' =>
      if Ascii.eqb c sep then EmptyString :: split sep s'
      else match split sep s' with
           | piece :: rest => String c piece :: rest
           | [] => [String c EmptyString]
           end
  end.

(** [l[-1]]: Python raises [IndexError] on an empty list, which is [None]
    here. *)
Definition item_last (l : list string) : option string := last l.

(** [c.lower()] on one code point below 256: the ASCII capitals and the
    Latin-1 capitals (all of 192..222 but the multiplication sign 215) move
    up by 32; everything else is unchanged. *)
Definition lower_char (c : ascii) : ascii :=
  let n := N_of_ascii c in
  if ((65 <=? n) && (n <=? 90) || (192 <=? n) && (n <=? 214)
      || (216 <=? n) && (n <=? 222))%N
  then ascii_of_N (n + 32) else c.

(** [s.lower()]. *)
Fixpoint lower (s : string) : string :=
  match s with
  | EmptyString => EmptyString
  | String c s' => String (lower_char c) (lower s')
  end.

(** Truthiness of a string: [bool(s)] is false only for the empty string. *)
Definition truthy (s : string) : bool :=
  match s with
  | EmptyString => false
  | String _ _ => true
  end.

(** Specification-level counterpart of [contains]. *)
Definition Occurs (sub s : string) : Prop :=
  exists pre post, s = pre +:+ sub +:+ post.

End PyStr.

(** ** Backend template: the e-mail validator *)

Definition allowed_domains : list string :=
  [".edu"; ".ac."; ".edu.in"; ".school.nz"; ".ac.uk"; ".edu.au"].

(** [email.split('@')[-1]]; the default is never used because [split] never
    returns the empty list (lemma [split_last_is_Some]). *)
Definition email_domain (email : string) : string :=
  default EmptyString (PyStr.item_last (PyStr.split "@" email)).

(** [any(p(x) for x in xs)]. *)
Definition any {A} (p : A -> bool) (xs : list A) : bool := existsb p xs.

Definition validate_edu_email (email : string) : bool :=
  let domain := PyStr.lower (email_domain email) in
  any (fun allowed_domain => PyStr.contains allowed_domain domain)
      allowed_domains.

(** ** Backend template: request models, stored records, responses *)

Module UserRegister.
Record t := mk {
  full_name : string;
  email : string;
  password : string;
  role : string;
  institution : string
}.
End UserRegister.

Module UserLogin.
Record t := mk {
  email : string;
  password : string
}.
End UserLogin.

(** The dictionary stored under each e-mail by [register]. *)
Module Account.
Record t := mk {
  full_name : string;
  password_hash : string;
  role : string;
  institution : string;
  created_at : Z
}.
End Account.

Record HTTPException := mkHTTPException {
  status_code : Z;
  detail : string
}.

Module RegisterResponse.
Record t := mk {
  message : string;
  email : string;
  role : string
}.
End RegisterResponse.

Module LoginResponse.
Record t := mk {
  message : string;
  email : string;
  role : string;
  full_name : string
}.
End LoginResponse.

(** The three exceptions the handlers raise, under the names the
    specification gives them. *)
Definition InvalidEmailDomain : HTTPException :=
  mkHTTPException 400
    "Please use a valid educational email address (.edu, .ac.* domains)".

Definition DuplicateAccount : HTTPException :=
  mkHTTPException 400 "User with this email already exists".

Definition InvalidCredentials : HTTPException :=
  mkHTTPException 401 "Invalid email or password".

(** What ends a handler early: an [HTTPException] the handler raises
    itself, or an exception of the password library
    ([passlib.exc.PasswordValueError], [PasswordSizeError], ...).  No
    handler has a [try]: the library's exception goes through and the
    service answers 500. *)
Inductive raised :=
| Http (e : HTTPException)
| LibraryError.

Coercion Http : HTTPException >-> raised.

(** ** The password context

    [pwd_context = CryptContext(schemes=["bcrypt"], deprecated="auto")] comes
    from [passlib]; only its two methods are used.  [hash] draws a fresh
    salt, which is an explicit argument here.  Both methods can raise (on
    a password with a NUL character or one that is too long, [verify] also
    on a string that is no hash): that is [None]. *)
Class CryptContext := {
  Salt : Type;
  pwd_context_hash : Salt -> string -> option string;
  pwd_context_verify : string -> string -> option bool
}.

(** The contract of the library the handlers rely on: a hash verifies
    against the password it was made from, whatever the salt. *)
Definition verifies_own_hash (ctx : CryptContext) : Prop :=
  forall (salt : Salt) (password hashed : string),
    pwd_context_hash salt password = Some hashed ->
    pwd_context_verify password hashed = Some true.

(** ** The handler monad: the global [users_db] and raised exceptions

    A handler reads and writes the one dictionary and may raise.  A raise
    keeps the dictionary as it is at that moment: Python rolls nothing
    back. *)
Module App.

Definition t (A : Type) : Type :=
  gmap string Account.t -> (raised + A) * gmap string Account.t.

Definition ret {A} (a : A) : t A := fun db => (inr a, db).

Definition raise {A} (e : raised) : t A := fun db => (inl e, db).

(** The result of a library call: its value, or its exception. *)
Definition library {A} (r : option A) : t A :=
  match r with
  | Some a => ret a
  | None => raise LibraryError
  end.

Definition bind {A B} (m : t A) (k : A -> t B) : t B :=
  fun db =>
    match m db with
    | (inl e, db') => (inl e, db')
    | (inr a, db') => k a db'
    end.

(** [users_db.get(key)]. *)
Definition get (key : string) : t (option Account.t) :=
  fun db => (inr (db !! key), db).

(** [key in users_db]. *)
Definition mem (key : string) : t bool :=
  fun db => (inr (bool_decide (is_Some (db !! key))), db).

(** [users_db[key] = value]. *)
Definition setitem (key : string) (value : Account.t) : t unit :=
  fun db => (inr tt, <[key := value]> db).

End App.

Notation "'do' x <- m ; k" := (App.bind m (fun x => k))
  (at level 10, x name, m at level 100, k at level 200).
Notation "'do_' m ; k" := (App.bind m (fun _ => k))
  (at level 10, m at level 100, k at level 200).

Section Backend.

Context {pwd_context : CryptContext}.

Definition hash_password (salt : Salt) (password : string) : App.t string :=
  App.library (pwd_context_hash salt password).

Definition verify_password (plain_password hashed_password : string)
  : App.t bool :=
  App.library (pwd_context_verify plain_password hashed_password).

(** [POST /api/auth/register].  The record is built, password hash and
    time included, before it is assigned. *)
Definition register (user : UserRegister.t) (salt : Salt) (utcnow : Z)
  : App.t RegisterResponse.t :=
  if negb (validate_edu_email (UserRegister.email user))
  then App.raise InvalidEmailDomain
  else
    do present <- App.mem (UserRegister.email user);
    if (present : bool) then App.raise DuplicateAccount
    else
      do password_hash <- hash_password salt (UserRegister.password user);
      do_ App.setitem (UserRegister.email user)
            (Account.mk (UserRegister.full_name user) password_hash
               (UserRegister.role user) (UserRegister.institution user)
               utcnow);
      App.ret (RegisterResponse.mk "Registration successful"
                 (UserRegister.email user) (UserRegister.role user)).

(** [POST /api/auth/login].  [not user] holds only for [None]: a stored
    record has five keys and is never falsy.  The password is verified
    only when the e-mail is in the dictionary. *)
Definition login (login_data : UserLogin.t) : App.t LoginResponse.t :=
  do user <- App.get (UserLogin.email login_data);
  match user with
  | None => App.raise InvalidCredentials
  | Some user =>
      do verified <- verify_password (UserLogin.password login_data)
                       (Account.password_hash user);
      if negb verified
      then App.raise InvalidCredentials
      else App.ret (LoginResponse.mk "Login successful"
                      (UserLogin.email login_data)
                      (Account.role user) (Account.full_name user))
  end.

End Backend.

(** ** Frontend template: the sign-up form of [login_ui] *)

Inductive session_value :=
| SBool (b : bool)
| SStr (s : string).

Module RegisterForm.
Record t := mk {
  full_name : string;
  email : string;
  password : string;
  confirm_password : string;
  role : string;
  institution_input : string;
  agree_terms : bool
}.
End RegisterForm.

(** The five [st.error] messages of the form, in source order:
    "Please fill in all required fields",
    "Password must be at least 8 characters long",
    "Passwords do not match",
    "Please agree to the terms and conditions",
    "Please use a valid educational email address (.edu, .ac.* domains)". *)
Inductive form_error :=
| FillAllFields
| PasswordTooShort
| PasswordsDoNotMatch
| TermsNotAgreed
| NotEducationalEmail.

(** What the form shows: an error, or the success banner followed by
    [st.rerun()]. *)
Inductive form_result :=
| st_error (e : form_error)
| st_success (full_name : string).

(** The specification's error kinds for the form: every message but the
    e-mail one is a [ValidationError]. *)
Definition is_ValidationError (e : form_error) : bool :=
  match e with
  | NotEducationalEmail => false
  | _ => true
  end.

Definition form_domains : list string :=
  [".edu"; ".ac."; ".school"; ".college"].

(** [all(xs)] over strings. *)
Definition all_truthy (xs : list string) : bool := forallb PyStr.truthy xs.

(** The body of [if register_btn:] in the "register_form" block, over
    [st.session_state]. *)
Definition register_form (f : RegisterForm.t) (ss : gmap string session_value)
  : form_result * gmap string session_value :=
  if negb (all_truthy [RegisterForm.full_name f; RegisterForm.email f;
                       RegisterForm.password f;
                       RegisterForm.institution_input f])
  then (st_error FillAllFields, ss)
  else if (String.length (RegisterForm.password f) <? 8)%nat
  then (st_error PasswordTooShort, ss)
  else if bool_decide (RegisterForm.password f <> RegisterForm.confirm_password f)
  then (st_error PasswordsDoNotMatch, ss)
  else if negb (RegisterForm.agree_terms f)
  then (st_error TermsNotAgreed, ss)
  else if negb (any (fun domain =>
                       PyStr.contains domain (PyStr.lower (RegisterForm.email f)))
                    form_domains)
  then (st_error NotEducationalEmail, ss)
  else
    (st_success (RegisterForm.full_name f),
     <["full_name" := SStr (RegisterForm.full_name f)]>
       (<["user_institution" := SStr (RegisterForm.institution_input f)]>
          (<["user_role" := SStr (PyStr.lower (RegisterForm.role f))]>
             (<["user_email" := SStr (RegisterForm.email f)]>
                (<["logged_in" := SBool true]> ss))))).

(** ** A small password context for running the handlers

    Not bcrypt: the "hash" is the salt character followed by the password,
    and no password is refused.  It satisfies [verifies_own_hash] and lets
    the handlers be evaluated. *)
Module DemoContext.

Definition hash (salt : ascii) (password : string) : option string :=
  Some (String salt password).

Definition verify (password hashed : string) : option bool :=
  match hashed with
  | EmptyString => Some false
  | String _ rest => Some (String.eqb password rest)
  end.

Definition ctx : CryptContext :=
  {| Salt := ascii; pwd_context_hash := hash; pwd_context_verify := verify |}.

End DemoContext.

(** ** A context that looks at a bounded prefix of the password

    Like [DemoContext], but only the first 72 characters of the password
    enter the hash, the way a fixed-size key schedule does.  It still
    verifies its own hashes. *)
Module PrefixContext.

Definition key (password : string) : string := String.substring 0 72 password.

Definition hash (salt : ascii) (password : string) : option string :=
  Some (String salt (key password)).

Definition verify (password hashed : string) : option bool :=
  match hashed with
  | EmptyString => Some false
  | String _ rest => Some (String.eqb (key password) rest)
  end.

Definition ctx : CryptContext :=
  {| Salt := ascii; pwd_context_hash := hash; pwd_context_verify := verify |}.

(** [c * n]. *)
Fixpoint repeat_char (c : ascii) (n : nat) : string :=
  match n with
  | O => EmptyString
  | S n' => String c (repeat_char c n')
  end.

End PrefixContext.

(** ** A context with the limits of passlib's bcrypt handler

    Like [DemoContext], but [hash] and [verify] raise on a password that
    contains a NUL character ([PasswordValueError]) or has more than 4096
    characters ([PasswordSizeError]), as the library does. *)
Module BcryptLimits.

Definition refused (password : string) : bool :=
  PyStr.contains (String "000"%char EmptyString) password
  || (4096 <? String.length password)%nat.

Definition hash (salt : ascii) (password : string) : option string :=
  if refused password then None else DemoContext.hash salt password.

Definition verify (password hashed : string) : option bool :=
  if refused password then None else DemoContext.verify password hashed.

Definition ctx : CryptContext :=
  {| Salt := ascii; pwd_context_hash := hash; pwd_context_verify := verify |}.

End BcryptLimits.

(** ** Backend template: the e-mail check endpoint *)

Module ValidateEmailResponse.
Record t := mk {
  email : string;
  is_valid_educational : bool;
  message : string
}.
End ValidateEmailResponse.

(** [GET /api/auth/validate-email]. *)
Definition validate_email (email : string) : ValidateEmailResponse.t :=
  let is_valid := validate_edu_email email in
  ValidateEmailResponse.mk email is_valid
    (if is_valid then "Valid educational email"
     else "Please use .edu or academic domain").

(** ** Backend template: a run of the service

    The requests are taken one at a time, each handler starting from the
    dictionary the previous one left; handlers that overlap in time are not
    modelled. *)
Section Service.

Context {pwd_context : CryptContext}.

Inductive request :=
| PostRegister (user : UserRegister.t) (salt : Salt) (utcnow : Z)
| PostLogin (login_data : UserLogin.t)
| GetValidateEmail (email : string).

Definition serve (db : gmap string Account.t) (r : request)
  : gmap string Account.t :=
  match r with
  | PostRegister user salt utcnow => snd (register user salt utcnow db)
  | PostLogin login_data => snd (login login_data db)
  | GetValidateEmail _ => db
  end.

Definition serve_all (rs : list request) (db : gmap string Account.t)
  : gmap string Account.t :=
  foldl serve db rs.

End Service.

(** ** Frontend template: the sign-in form, the demo buttons, the dashboard

    [st.session_state] is the map of the entries the script assigns; the
    entries Streamlit itself keeps for keyed widgets are not part of it.
    A run of the script is started by at most one interaction. *)

(** The two [st.error] messages of the sign-in form:
    "Please fill in all fields" and
    "Please use a valid educational email address (.edu, .ac.* domains)". *)
Inductive login_error :=
| LoginFillAllFields
| LoginNotEducationalEmail.

(** An error, or the welcome banner followed by [st.rerun()]. *)
Inductive login_result :=
| login_st_error (e : login_error)
| login_st_success (email : string).

Definition role_words : list string := ["prof"; "staff"; "faculty"].

(** [l[0]]. *)
Definition item_first (l : list string) : option string := head l.

(** [l[-2]]: [IndexError], here [None], on fewer than two items. *)
Definition item_second_last (l : list string) : option string :=
  if (2 <=? List.length l)%nat then l !! (List.length l - 2)%nat else None.

(** Truthiness of a session value. *)
Definition value_truthy (v : session_value) : bool :=
  match v with
  | SBool b => b
  | SStr s => PyStr.truthy s
  end.

(** The "Quick Login as Professor" button. *)
Definition demo_professor (ss : gmap string session_value)
  : gmap string session_value :=
  <["full_name" := SStr "Professor Smith"]>
    (<["user_institution" := SStr "Harvard"]>
       (<["user_role" := SStr "professor"]>
          (<["user_email" := SStr "prof.smith@harvard.edu"]>
             (<["logged_in" := SBool true]> ss)))).

(** The "Quick Login as Student" button. *)
Definition demo_student (ss : gmap string session_value)
  : gmap string session_value :=
  <["full_name" := SStr "John Student"]>
    (<["user_institution" := SStr "Stanford"]>
       (<["user_role" := SStr "student"]>
          (<["user_email" := SStr "student.john@stanford.edu"]>
             (<["logged_in" := SBool true]> ss)))).

(** [list(st.session_state.keys())]. *)
Definition session_keys (ss : gmap string session_value) : list string :=
  (map_to_list ss).*1.

(** The loop of the "Logout" button: [del st.session_state[key]] for every
    key of the session, one after another. *)
Definition logout (ss : gmap string session_value)
  : gmap string session_value :=
  foldl (fun acc key => delete key acc) ss (session_keys ss).

Inductive dashboard :=
| professor_dashboard
| student_dashboard.

(** The three lines the sidebar writes: the welcome name, the role and the
    institution. *)
Record sidebar := mk_sidebar {
  welcome : session_value;
  role_line : string;
  institution_line : session_value
}.

Inductive message :=
| LoginMessage (e : login_error)
| RegisterMessage (e : form_error).

Inductive view :=
| login_view (shown : option message)
| dashboard_view (sb : sidebar) (d : dashboard).

(** How one run of the script ends: it renders a page, or stops at
    [st.rerun()], or stops at an [AttributeError] (a name missing from
    [st.session_state], or [.title()] on a value that is not a string). *)
Inductive run_result :=
| Rendered (v : view)
| Rerun
| AttributeError.

(** The interaction that starts a run of the script. *)
Inductive event :=
| NoEvent
| SubmitLogin (email password : string)
| SubmitRegister (f : RegisterForm.t)
| ClickDemoProfessor
| ClickDemoStudent
| ClickLogout.

Section Frontend.

(** Python's [str.title]; its result can leave the code points below 256
    (the titlecase of [y] with diaeresis is U+0178), so it is a parameter
    rather than a function on this string type. *)
Variable title : string -> string.

(** The body of [if login_btn:] in the "login_form" block. *)
Definition login_form (email password : string)
    (ss : gmap string session_value)
  : login_result * gmap string session_value :=
  if PyStr.truthy email && PyStr.truthy password then
    if any (fun domain => PyStr.contains domain (PyStr.lower email))
         form_domains
    then
      let domain := email_domain email in
      (login_st_success email,
       <["user_role" :=
           SStr (if any (fun word => PyStr.contains word (PyStr.lower email))
                      role_words
                 then "professor" else "student")]>
         (<["user_institution" :=
              SStr (title (default EmptyString
                             (item_first (PyStr.split "." domain))))]>
            (<["user_email" := SStr email]>
               (<["logged_in" := SBool true]> ss))))
    else (login_st_error LoginNotEducationalEmail, ss)
  else (login_st_error LoginFillAllFields, ss).

(** The institution the sign-up form proposes for the e-mail typed so far
    ("Dynamic institution from email domain"). *)
Definition detect_institution (email : string) : string :=
  if PyStr.truthy email && PyStr.contains "@" email then
    let domain_parts := PyStr.split "." (email_domain email) in
    if (2 <=? List.length domain_parts)%nat then
      title (default EmptyString (item_second_last domain_parts))
      +:+ " University"
    else EmptyString
  else EmptyString.

(** [login_ui()]: at most one of its buttons is pressed in a run. *)
Definition login_ui (ev : event) (ss : gmap string session_value)
  : run_result * gmap string session_value :=
  match ev with
  | SubmitLogin email password =>
      match login_form email password ss with
      | (login_st_error e, ss') =>
          (Rendered (login_view (Some (LoginMessage e))), ss')
      | (login_st_success _, ss') => (Rerun, ss')
      end
  | SubmitRegister f =>
      match register_form f ss with
      | (st_error e, ss') =>
          (Rendered (login_view (Some (RegisterMessage e))), ss')
      | (st_success _, ss') => (Rerun, ss')
      end
  | ClickDemoProfessor => (Rerun, demo_professor ss)
  | ClickDemoStudent => (Rerun, demo_student ss)
  | NoEvent | ClickLogout => (Rendered (login_view None), ss)
  end.

(** [main_dashboard()]: the sidebar reads [user_email] and [user_role] as
    attributes, then the logout button, then the page for the role. *)
Definition main_dashboard (ev : event) (ss : gmap string session_value)
  : run_result * gmap string session_value :=
  match ss !! "user_email" with
  | None => (AttributeError, ss)
  | Some user_email =>
      match ss !! "user_role" with
      | Some (SStr user_role) =>
          let sb :=
            mk_sidebar (default user_email (ss !! "full_name"))
              (title user_role)
              (default (SStr "Not specified") (ss !! "user_institution")) in
          match ev with
          | ClickLogout => (Rerun, logout ss)
          | _ =>
              (Rendered
                 (dashboard_view sb
                    (if String.eqb user_role "professor"
                     then professor_dashboard else student_dashboard)),
               ss)
          end
      | _ => (AttributeError, ss)
      end
  end.

(** One run of [streamlit_app/app.py] from top to bottom ("Check
    authentication" and the dispatch below it). *)
Definition script (ev : event) (ss : gmap string session_value)
  : run_result * gmap string session_value :=
  let ss :=
    if bool_decide (is_Some (ss !! "logged_in")) then ss
    else <["logged_in" := SBool false]> ss in
  match ss !! "logged_in" with
  | None => (AttributeError, ss)
  | Some logged_in =>
      if negb (value_truthy logged_in) then login_ui ev ss
      else main_dashboard ev ss
  end.

(** The session after a sequence of runs. *)
Definition play (evs : list event) (ss : gmap string session_value)
  : gmap string session_value :=
  foldl (fun ss ev => snd (script ev ss)) ss evs.

End Frontend.

(** ** A titlecase for the letters a-z and A-Z

    Stands for [str.title] where a concrete function is needed to run the
    forms: the first letter of every run of letters is capitalised, the
    others are lowered. *)
Module AsciiTitle.

Definition is_upper (c : ascii) : bool :=
  let n := N_of_ascii c in ((65 <=? n) && (n <=? 90))%N.

Definition is_lower (c : ascii) : bool :=
  let n := N_of_ascii c in ((97 <=? n) && (n <=? 122))%N.

Definition to_upper (c : ascii) : ascii :=
  if is_lower c then ascii_of_N (N_of_ascii c - 32) else c.

Definition to_lower (c : ascii) : ascii :=
  if is_upper c then ascii_of_N (N_of_ascii c + 32) else c.

Fixpoint go (previous_is_cased : bool) (s : string) : string :=
  match s with
  | EmptyString => EmptyString
  | String c s' =>
      String (if previous_is_cased then to_lower c else to_upper c)
             (go (is_upper c || is_lower c) s')
  end.

Definition title (s : string) : string := go false s.

End AsciiTitle.

(** The e-mail test both forms of the frontend make, on the whole
    lowercased input:
    [any(domain in email.lower() for domain in ['.edu', '.ac.', '.school',
    '.college'])]. *)
Definition form_accepts (email : string) : bool :=
  any (fun domain => PyStr.contains domain (PyStr.lower email)) form_domains.

(** ** The setup script: directories and files

    [setup_project.py] itself makes directories with [Path.mkdir] and
    writes six files.  The file system below the working directory is a
    map from paths to nodes.  A path lists its components innermost first:
    [Path("backend/app")] is [["app"; "backend"]], its parent is the tail,
    and [[]] is the working directory, which is always a directory.  What
    the script prints is not modelled. *)
Module Scaffold.

(** The six texts the script writes. *)
Inductive template :=
| requirements_content
| env_content
| gitignore_content
| init_py_content
| main_py_content
| app_py_content.

(** What a file holds: one of the script's texts, or anything else. *)
Inductive content :=
| Template (t : template)
| UserText (s : string).

Inductive node :=
| Dir
| File (c : content).

Inductive OSError :=
| FileExistsError
| FileNotFoundError
| NotADirectoryError
| IsADirectoryError.

(** A step of the script: it may raise, and leaves the file system as it
    is at that point. *)
Definition IO (A : Type) : Type :=
  gmap (list string) node -> (OSError + A) * gmap (list string) node.

Definition node_at (fs : gmap (list string) node) (p : list string)
  : option node :=
  match p with
  | [] => Some Dir
  | _ :: _ => fs !! p
  end.

(** Walking down to [p] as a directory, from the working directory: [None]
    when every step is a directory, else the error of the outermost step
    that is not ([ENOENT] for a missing one, [ENOTDIR] for a file). *)
Fixpoint dir_status (fs : gmap (list string) node) (p : list string)
  : option OSError :=
  match p with
  | [] => None
  | _ :: parent =>
      match dir_status fs parent with
      | Some e => Some e
      | None =>
          match fs !! p with
          | Some Dir => None
          | Some (File _) => Some NotADirectoryError
          | None => Some FileNotFoundError
          end
      end
  end.

(** [Path.is_dir()]. *)
Definition is_dir (p : list string) (fs : gmap (list string) node) : bool :=
  match dir_status fs p with
  | None => true
  | Some _ => false
  end.

(** [os.mkdir(p)]: the parent must be a directory and the path free. *)
Definition os_mkdir (p : list string) : IO unit :=
  fun fs =>
    match dir_status fs (tail p) with
    | Some e => (inl e, fs)
    | None =>
        match node_at fs p with
        | Some _ => (inl FileExistsError, fs)
        | None => (inr tt, <[p := Dir]> fs)
        end
    end.

(** The [except OSError] clause of [Path.mkdir]: the error is swallowed
    only under [exist_ok] and when the path is a directory. *)
Definition on_os_error (exist_ok : bool) (p : list string) (e : OSError)
  : IO unit :=
  fun fs =>
    if negb exist_ok || negb (is_dir p fs) then (inl e, fs) else (inr tt, fs).

(** [Path.mkdir(parents=False, exist_ok=exist_ok)]. *)
Definition mkdir_here (exist_ok : bool) (p : list string) : IO unit :=
  fun fs =>
    match os_mkdir p fs with
    | (inr _, fs') => (inr tt, fs')
    | (inl FileNotFoundError, fs') => (inl FileNotFoundError, fs')
    | (inl e, fs') => on_os_error exist_ok p e fs'
    end.

(** [Path.mkdir(parents=True, exist_ok=exist_ok)]: on a missing parent,
    the parent is made first (with [parents=True, exist_ok=True]) and the
    path itself then with [parents=False]. *)
Fixpoint mkdir_parents (exist_ok : bool) (p : list string) : IO unit :=
  fun fs =>
    match os_mkdir p fs with
    | (inr _, fs') => (inr tt, fs')
    | (inl FileNotFoundError, fs') =>
        match p with
        | [] => (inl FileNotFoundError, fs')
        | _ :: parent =>
            match mkdir_parents true parent fs' with
            | (inl e, fs'') => (inl e, fs'')
            | (inr _, fs'') => mkdir_here exist_ok p fs''
            end
        end
    | (inl e, fs') => on_os_error exist_ok p e fs'
    end.

Definition mkdir (parents exist_ok : bool) (p : list string) : IO unit :=
  if parents then mkdir_parents exist_ok p else mkdir_here exist_ok p.

(** [Path.write_text] and [open(name, 'w').write]: the file is created or
    replaced; a parent that is missing or a file, or a directory in the
    file's place, raises. *)
Definition write_text (p : list string) (t : template) : IO unit :=
  fun fs =>
    match dir_status fs (tail p) with
    | Some e => (inl e, fs)
    | None =>
        match node_at fs p with
        | Some Dir => (inl IsADirectoryError, fs)
        | _ => (inr tt, <[p := File (Template t)]> fs)
        end
    end.

(** One statement after another; an exception ends the sequence. *)
Definition and_then (m k : IO unit) : IO unit :=
  fun fs =>
    match m fs with
    | (inl e, fs') => (inl e, fs')
    | (inr _, fs') => k fs'
    end.

(** [for x in xs: body(x)]. *)
Fixpoint for_each {A} (body : A -> IO unit) (xs : list A) : IO unit :=
  match xs with
  | [] => fun fs => (inr tt, fs)
  | x :: xs' => and_then (body x) (for_each body xs')
  end.

(** The values of the [structure] dictionary: a list of names, or a
    dictionary from names to lists of names. *)
Inductive sub_dirs :=
| SubList (names : list string)
| SubDict (entries : list (string * list string)).

Definition structure : list (string * sub_dirs) :=
  [ ("streamlit_app", SubList ["pages"; "components"; "utils"]);
    ("backend", SubDict [ ("app", []); ("models", []); ("services", []);
                          ("tests", []) ]);
    ("infrastructure", SubList []);
    ("database", SubList []);
    ("docs", SubList []) ].

(** The loops of [create_structure], over any such dictionary. *)
Definition create_structure_of (st : list (string * sub_dirs)) : IO unit :=
  for_each
    (fun entry : string * sub_dirs =>
       let (main_dir, subs) := entry in
       match subs with
       | SubList names =>
           and_then (mkdir false true [main_dir])
             (for_each (fun sub_dir => mkdir true true [sub_dir; main_dir])
                names)
       | SubDict entries =>
           and_then (mkdir false true [main_dir])
             (for_each
                (fun sub : string * list string =>
                   let (sub_dir, sub_sub_dirs) := sub in
                   and_then (mkdir true true [sub_dir; main_dir])
                     (for_each
                        (fun sub_sub_dir =>
                           mkdir true true [sub_sub_dir; sub_dir; main_dir])
                        sub_sub_dirs))
                entries)
       end)
    st.

Definition create_structure : IO unit := create_structure_of structure.

Definition create_requirements : IO unit :=
  write_text ["requirements.txt"] requirements_content.

Definition create_environment_files : IO unit :=
  and_then (write_text [".env"] env_content)
           (write_text [".gitignore"] gitignore_content).

Definition create_backend_files : IO unit :=
  and_then (write_text ["__init__.py"; "app"; "backend"] init_py_content)
           (write_text ["main.py"; "app"; "backend"] main_py_content).

Definition create_frontend_files : IO unit :=
  write_text ["app.py"; "streamlit_app"] app_py_content.

(** The five creation steps of [main], in its order.  The step after them
    runs [venv] and [pip] as external programs and is left out. *)
Definition create_project : IO unit :=
  and_then create_structure
    (and_then create_requirements
       (and_then create_environment_files
          (and_then create_backend_files create_frontend_files))).

(** The [mkdir] calls [create_structure_of] makes, in order, each with its
    [parents] flag. *)
Definition mkdir_calls (st : list (string * sub_dirs))
  : list (bool * list string) :=
  flat_map
    (fun entry : string * sub_dirs =>
       let (main_dir, subs) := entry in
       (false, [main_dir]) ::
       match subs with
       | SubList names => map (fun sub_dir => (true, [sub_dir; main_dir])) names
       | SubDict entries =>
           flat_map
             (fun sub : string * list string =>
                let (sub_dir, sub_sub_dirs) := sub in
                (true, [sub_dir; main_dir]) ::
                map (fun sub_sub_dir =>
                       (true, [sub_sub_dir; sub_dir; main_dir]))
                    sub_sub_dirs)
             entries
       end)
    st.

(** The directories of the project, in the order they are made. *)
Definition project_dirs : list (list string) :=
  map snd (mkdir_calls structure).

(** The files of the project with the text each gets, in the order they
    are written. *)
Definition project_files : list (list string * template) :=
  [ (["requirements.txt"], requirements_content);
    ([".env"], env_content);
    ([".gitignore"], gitignore_content);
    (["__init__.py"; "app"; "backend"], init_py_content);
    (["main.py"; "app"; "backend"], main_py_content);
    (["app.py"; "streamlit_app"], app_py_content) ].

End Scaffold.

(** ** Specification-level notions used in the statements *)

(** The file system with every path of [ps] a directory. *)
Definition with_dirs (ps : list (list string))
    (fs : gmap (list string) Scaffold.node) : gmap (list string) Scaffold.node :=
  foldl (fun m p => <[p := Scaffold.Dir]> m) fs ps.

(** The file system with every file of [files] holding its text. *)
Definition with_files (files : list (list string * Scaffold.template))
    (fs : gmap (list string) Scaffold.node) : gmap (list string) Scaffold.node :=
  foldl (fun m f => <[f.1 := Scaffold.File (Scaffold.Template f.2)]> m)
        fs files.

(** One call of the flat list [Scaffold.mkdir_calls]. *)
Definition mkdir_call (c : bool * list string) : Scaffold.IO unit :=
  Scaffold.mkdir c.1 true c.2.

(** One write of the list [Scaffold.project_files]. *)
Definition write_file (f : list string * Scaffold.template)
  : Scaffold.IO unit :=
  Scaffold.write_text f.1 f.2.

(** Is the path a regular file? *)
Definition is_file (fs : gmap (list string) Scaffold.node) (p : list string)
  : bool :=
  match fs !! p with
  | Some (Scaffold.File _) => true
  | _ => false
  end.

(** Every path of the list comes after its parent, given the paths of
    [made] and the working directory. *)
Fixpoint parents_first (made : list (list string)) (ps : list (list string))
  : bool :=
  match ps with
  | [] => true
  | p :: rest =>
      match p with
      | [] => false
      | _ :: parent =>
          (bool_decide (parent = []) || bool_decide (parent ∈ made))
          && parents_first (p :: made) rest
      end
  end.

(** The sessions the script can be in: nothing yet, logged out with
    nothing kept, or logged in. *)
Definition session_tidy (ss : gmap string session_value) : Prop :=
  ss = ∅ \/ ss = {[ "logged_in" := SBool false ]} \/
  exists v, ss !! "logged_in" = Some v /\ value_truthy v = true.

(** What [main_dashboard] needs of a session it is shown for: if
    [logged_in] is set and truthy, then [user_email] is present and
    [user_role] is a string. *)
Definition session_ok (ss : gmap string session_value) : Prop :=
  forall v,
    ss !! "logged_in" = Some v -> value_truthy v = true ->
    is_Some (ss !! "user_email") /\ exists r, ss !! "user_role" = Some (SStr r).

(** The text after the last [@], or the whole input when it has none. *)
Definition DomainOf (email domain : string) : Prop :=
  PyStr.contains "@" domain = false /\
  (email = domain \/ exists pre, email = pre +:+ "@" +:+ domain).

(** The five substrings the specification lists for the validator; the
    code's [allowed_domains] has a sixth. *)
Definition listed_domains : list string :=
  [".edu"; ".ac."; ".edu.in"; ".ac.uk"; ".edu.au"].

(** * Properties *)

(** ** The validator on the specification's examples *)

Example validate_mit : validate_edu_email "student@mit.edu" = true.
Proof. reflexivity. Qed.

Example validate_gmail : validate_edu_email "user@gmail.com" = false.
Proof. reflexivity. Qed.

Example validate_noatsign : validate_edu_email "noatsign" = false.
Proof. reflexivity. Qed.

Example validate_upper : validate_edu_email "A@B@MIT.EDU" = true.
Proof. reflexivity. Qed.

(** ** Facts about the string primitives *)

Section PyStrFacts.

Import PyStr.

Lemma startswith_spec (p s : string) :
  startswith p s = true <-> exists t, s = p +:+ t.
Proof.
  revert s. induction p as [|a p IH]; intros s; simpl.
  - split; [intros _; by exists s | done].
  - destruct s as [|b s].
    + split; [done | intros [t Ht]; discriminate Ht].
    + rewrite andb_true_iff, Ascii.eqb_eq, IH. split.
      * intros [-> [t ->]]. by exists t.
      * intros [t Ht]. injection Ht as -> ->. split; [done | by exists t].
Qed.

Lemma contains_spec (sub s : string) :
  contains sub s = true <-> Occurs sub s.
Proof.
  unfold Occurs. induction s as [|c s IH]; simpl; rewrite orb_true_iff.
  - rewrite startswith_spec. split.
    + intros [[t Ht] | ?]; [| done]. by exists EmptyString, t.
    + intros ([|? ?] & post & Hs); [| discriminate Hs].
      left. by exists post.
  - rewrite startswith_spec, IH. split.
    + intros [[t Ht] | (pre & post & ->)].
      * by exists EmptyString, t.
      * by exists (String c pre), post.
    + intros ([|c' pre] & post & Hs).
      * left. by exists post.
      * right. injection Hs as -> ->. by exists pre, post.
Qed.

Lemma contains_false (sub s : string) :
  contains sub s = false <-> ~ Occurs sub s.
Proof. rewrite <- contains_spec. by destruct (contains sub s). Qed.

(** A one-character needle occurs in [String c s] iff it is [c] or occurs
    in [s]. *)
Lemma contains_char_cons (sep c : ascii) (s : string) :
  contains (String sep EmptyString) (String c s)
  = Ascii.eqb sep c || contains (String sep EmptyString) s.
Proof. simpl. by rewrite andb_true_r. Qed.

(** The shape of a split: one piece when the separator does not occur,
    otherwise at least two, the last of which is what follows the last
    separator. *)
Lemma split_shape (sep : ascii) (s : string) :
  (contains (String sep EmptyString) s = false /\ split sep s = [s]) \/
  (exists pre d l,
      s = pre +:+ String sep d /\
      contains (String sep EmptyString) d = false /\
      l <> [] /\ split sep s = (l ++ [d])%list).
Proof.
  induction s as [|c s IH].
  - left. done.
  - cbn [split]. rewrite contains_char_cons, (Ascii.eqb_sym sep c).
    destruct (Ascii.eqb_spec c sep) as [-> | Hc].
    + right. destruct IH as [[Hno Hs] | (pre & d & l & -> & Hno & Hl & Hs)].
      * exists EmptyString, s, [EmptyString]. by rewrite Hs.
      * exists (String sep pre), d, (EmptyString :: l). by rewrite Hs.
    + destruct IH as [[Hno Hs] | (pre & d & l & -> & Hno & Hl & Hs)].
      * left. by rewrite Hs.
      * right. destruct l as [|p l]; [done |].
        exists (String c pre), d, (String c p :: l). by rewrite Hs.
Qed.

Lemma split_last_is_Some (sep : ascii) (s : string) :
  is_Some (item_last (split sep s)).
Proof.
  unfold item_last.
  destruct (split_shape sep s) as [[_ ->] | (? & d & l & _ & _ & _ & ->)].
  - by eexists.
  - rewrite last_snoc. by eexists.
Qed.

Lemma split_no_sep (sep : ascii) (s : string) :
  contains (String sep EmptyString) s = false -> split sep s = [s].
Proof.
  intros Hno.
  destruct (split_shape sep s) as [[_ Hs] | (pre & d & l & -> & _ & _ & _)];
    [done |].
  apply contains_false in Hno. destruct Hno. by exists pre, d.
Qed.

Lemma split_after_sep (sep : ascii) (pre d : string) :
  contains (String sep EmptyString) d = false ->
  exists l, l <> [] /\ split sep (pre +:+ String sep d) = (l ++ [d])%list.
Proof.
  intros Hno. induction pre as [|c pre (l & Hl & IH)]; simpl.
  - rewrite Ascii.eqb_refl, (split_no_sep _ _ Hno). by exists [EmptyString].
  - rewrite IH. destruct l as [|p l]; [done |].
    destruct (Ascii.eqb c sep).
    + by exists (EmptyString :: p :: l).
    + by exists (String c p :: l).
Qed.

Lemma lower_char_at (c : ascii) :
  Ascii.eqb (lower_char c) "@" = Ascii.eqb c "@".
Proof. by destruct c as [[] [] [] [] [] [] [] []]. Qed.

Lemma lower_char_idemp (c : ascii) : lower_char (lower_char c) = lower_char c.
Proof. by destruct c as [[] [] [] [] [] [] [] []]. Qed.

Lemma lower_idemp (s : string) : lower (lower s) = lower s.
Proof.
  induction s as [|c s IH]; simpl; [done |].
  by rewrite lower_char_idemp, IH.
Qed.

Lemma split_lower (s : string) :
  split "@" (lower s) = lower <$> split "@" s.
Proof.
  induction s as [|c s IH]; [done |].
  cbn [lower split]. rewrite lower_char_at, IH.
  destruct (Ascii.eqb c "@"); [done |].
  by destruct (split "@" s).
Qed.

End PyStrFacts.

(** ** The domain of an e-mail *)

Lemma email_domain_spec (email : string) : DomainOf email (email_domain email).
Proof.
  unfold DomainOf, email_domain, PyStr.item_last.
  destruct (split_shape "@" email) as [[Hno ->] | (pre & d & l & -> & Hno & _ & ->)].
  - simpl. auto.
  - rewrite last_snoc. simpl. split; [done |]. right. by exists pre.
Qed.

Lemma DomainOf_unique (email domain : string) :
  DomainOf email domain -> email_domain email = domain.
Proof.
  unfold email_domain, PyStr.item_last. intros [Hno [-> | [pre ->]]].
  - by rewrite (split_no_sep _ _ Hno).
  - destruct (split_after_sep "@" pre domain Hno) as (l & _ & Hs).
    change (pre +:+ "@" +:+ domain) with (pre +:+ String "@" domain).
    by rewrite Hs, last_snoc.
Qed.

Lemma email_domain_lower (email : string) :
  email_domain (PyStr.lower email) = PyStr.lower (email_domain email).
Proof.
  unfold email_domain, PyStr.item_last.
  rewrite split_lower, fmap_last.
  destruct (split_last_is_Some "@" email) as [d Hd].
  unfold PyStr.item_last in Hd. by rewrite Hd.
Qed.

(** The verdict depends on the input only up to letter case. *)
Lemma validate_edu_email_case (e e' : string) :
  PyStr.lower e = PyStr.lower e' ->
  validate_edu_email e = validate_edu_email e'.
Proof.
  intros He. unfold validate_edu_email.
  by rewrite <- !email_domain_lower, He.
Qed.

Lemma any_true_iff {A} (p : A -> bool) (xs : list A) :
  any p xs = true <-> exists x, In x xs /\ p x = true.
Proof. apply existsb_exists. Qed.

(** ** The validator *)

Lemma validate_edu_email_occurs (email : string) :
  validate_edu_email email = true <->
  exists allowed,
    In allowed allowed_domains /\
    PyStr.Occurs allowed (PyStr.lower (email_domain email)).
Proof.
  unfold validate_edu_email. rewrite any_true_iff.
  by setoid_rewrite contains_spec.
Qed.

(** C1 (amended).  The validator returns true exactly when the lowercased
    domain of the e-mail (the text after its last [@], or the whole input
    when there is none) contains one of the six entries of
    [allowed_domains]: [.edu], [.ac.], [.edu.in], [.school.nz], [.ac.uk],
    [.edu.au]. *)
Theorem validate_edu_email_iff (email domain : string) :
  DomainOf email domain ->
  validate_edu_email email = true <->
  exists allowed,
    In allowed allowed_domains /\ PyStr.Occurs allowed (PyStr.lower domain).
Proof.
  intros Hd. apply DomainOf_unique in Hd as <-.
  apply validate_edu_email_occurs.
Qed.

Lemma validate_edu_email_iff_witness :
  DomainOf "student@mit.edu" "mit.edu" /\
  (validate_edu_email "student@mit.edu" = true <->
   exists allowed,
     In allowed allowed_domains /\ PyStr.Occurs allowed (PyStr.lower "mit.edu")).
Proof.
  assert (Hd : DomainOf "student@mit.edu" "mit.edu").
  { split; [reflexivity | right; by exists "student"]. }
  split; [exact Hd | exact (validate_edu_email_iff _ _ Hd)].
Defined.

(** C1 as stated fails: an address under [.school.nz] is accepted although
    its domain, lowercased or not, contains none of the five listed
    substrings. *)
Lemma validate_edu_email_school_nz :
  DomainOf "x@kiwi.school.nz" "kiwi.school.nz" /\
  PyStr.lower "kiwi.school.nz" = "kiwi.school.nz" /\
  validate_edu_email "x@kiwi.school.nz" = true /\
  ~ (exists d, In d listed_domains /\ PyStr.Occurs d "kiwi.school.nz").
Proof.
  split; [split; [reflexivity | right; by exists "x"] |].
  split; [reflexivity |]. split; [reflexivity |].
  intros (d & Hin & Hocc). apply contains_spec in Hocc.
  simpl in Hin.
  repeat (destruct Hin as [<- | Hin]; [vm_compute in Hocc; discriminate |]).
  done.
Qed.

(** C2 (amended).  An input with no [@] is its own domain: the validator
    matches the allow-list against the whole lowercased input, and returns
    false exactly when none of the six entries occurs in it. *)
Theorem validate_edu_email_no_at (email : string) :
  PyStr.contains "@" email = false ->
  email_domain email = email /\
  (validate_edu_email email = false <->
   forall allowed,
     In allowed allowed_domains -> ~ PyStr.Occurs allowed (PyStr.lower email)).
Proof.
  intros Hno.
  assert (Hd : email_domain email = email).
  { apply DomainOf_unique. split; auto. }
  split; [done |].
  rewrite <- not_true_iff_false, validate_edu_email_occurs, Hd. split.
  - intros Hn a Hin Hocc. apply Hn. by exists a.
  - intros Hall (a & Hin & Hocc). by apply (Hall a).
Qed.

Lemma validate_edu_email_no_at_witness :
  email_domain "noatsign" = "noatsign" /\
  (validate_edu_email "noatsign" = false <->
   forall allowed,
     In allowed allowed_domains ->
     ~ PyStr.Occurs allowed (PyStr.lower "noatsign")).
Proof. apply validate_edu_email_no_at. reflexivity. Defined.

(** C2 as stated fails: with no [@] the domain is the whole input, not the
    empty string, and an input that contains [.edu] passes. *)
Lemma validate_edu_email_no_at_accepted :
  PyStr.contains "@" "noatsign.edu" = false /\
  email_domain "noatsign.edu" = "noatsign.edu" /\
  validate_edu_email "noatsign.edu" = true.
Proof. repeat split. Qed.

(** ** The handlers, unfolded *)

Section BackendFacts.

Context {pwd_context : CryptContext}.

Lemma register_unfold (user : UserRegister.t) (salt : Salt) (utcnow : Z)
    (db : gmap string Account.t) :
  register user salt utcnow db =
  if negb (validate_edu_email (UserRegister.email user))
  then (inl (Http InvalidEmailDomain), db)
  else match db !! UserRegister.email user with
       | Some _ => (inl (Http DuplicateAccount), db)
       | None =>
           match pwd_context_hash salt (UserRegister.password user) with
           | None => (inl LibraryError, db)
           | Some password_hash =>
               (inr (RegisterResponse.mk "Registration successful"
                       (UserRegister.email user) (UserRegister.role user)),
                <[UserRegister.email user :=
                    Account.mk (UserRegister.full_name user) password_hash
                      (UserRegister.role user) (UserRegister.institution user)
                      utcnow]> db)
           end
       end.
Proof.
  unfold register. destruct (validate_edu_email _); [simpl | done].
  unfold App.bind, App.mem.
  destruct (db !! UserRegister.email user); [done |]. simpl.
  unfold hash_password, App.library.
  by destruct (pwd_context_hash _ _).
Qed.

Lemma login_unfold (login_data : UserLogin.t) (db : gmap string Account.t) :
  login login_data db =
  match db !! UserLogin.email login_data with
  | None => (inl (Http InvalidCredentials), db)
  | Some user =>
      match pwd_context_verify (UserLogin.password login_data)
              (Account.password_hash user) with
      | None => (inl LibraryError, db)
      | Some true =>
          (inr (LoginResponse.mk "Login successful"
                  (UserLogin.email login_data)
                  (Account.role user) (Account.full_name user)), db)
      | Some false => (inl (Http InvalidCredentials), db)
      end
  end.
Proof.
  unfold login, App.bind, App.get.
  destruct (db !! UserLogin.email login_data) as [user|]; [| done].
  unfold verify_password, App.library.
  by destruct (pwd_context_verify _ _) as [[|]|].
Qed.

(** A successful registration inserts exactly the new record. *)
Lemma register_fresh (user : UserRegister.t) (salt : Salt) (utcnow : Z)
    (db : gmap string Account.t) (password_hash : string) :
  validate_edu_email (UserRegister.email user) = true ->
  db !! UserRegister.email user = None ->
  pwd_context_hash salt (UserRegister.password user) = Some password_hash ->
  register user salt utcnow db =
  (inr (RegisterResponse.mk "Registration successful"
          (UserRegister.email user) (UserRegister.role user)),
   <[UserRegister.email user :=
       Account.mk (UserRegister.full_name user) password_hash
         (UserRegister.role user) (UserRegister.institution user) utcnow]> db).
Proof. intros Hv Hfresh Hh. by rewrite register_unfold, Hv, Hfresh, Hh. Qed.

(** What a registration that succeeded tells about the request. *)
Lemma register_success_inv (user : UserRegister.t) (salt : Salt) (utcnow : Z)
    (db : gmap string Account.t) (response : RegisterResponse.t) :
  fst (register user salt utcnow db) = inr response ->
  validate_edu_email (UserRegister.email user) = true /\
  db !! UserRegister.email user = None /\
  exists password_hash,
    pwd_context_hash salt (UserRegister.password user) = Some password_hash.
Proof.
  rewrite register_unfold.
  destruct (validate_edu_email _); simpl; [| done].
  destruct (db !! UserRegister.email user); simpl; [done |].
  destruct (pwd_context_hash _ _) as [h|]; simpl; [| done].
  intros _. repeat split. by exists h.
Qed.

Lemma register_present (user : UserRegister.t) (salt : Salt) (utcnow : Z)
    (db : gmap string Account.t) :
  validate_edu_email (UserRegister.email user) = true ->
  is_Some (db !! UserRegister.email user) ->
  register user salt utcnow db = (inl (Http DuplicateAccount), db).
Proof. intros Hv [a Ha]. by rewrite register_unfold, Hv, Ha. Qed.

Lemma register_failure_keeps (user : UserRegister.t) (salt : Salt)
    (utcnow : Z) (db : gmap string Account.t) (x : raised) :
  fst (register user salt utcnow db) = inl x ->
  snd (register user salt utcnow db) = db.
Proof.
  rewrite register_unfold.
  destruct (validate_edu_email _); simpl; [| done].
  destruct (db !! UserRegister.email user); simpl; [done |].
  by destruct (pwd_context_hash _ _).
Qed.

Lemma login_absent (login_data : UserLogin.t) (db : gmap string Account.t) :
  db !! UserLogin.email login_data = None ->
  login login_data db = (inl (Http InvalidCredentials), db).
Proof. intros Ha. by rewrite login_unfold, Ha. Qed.

Lemma login_verified (login_data : UserLogin.t) (db : gmap string Account.t)
    (account : Account.t) :
  db !! UserLogin.email login_data = Some account ->
  pwd_context_verify (UserLogin.password login_data)
    (Account.password_hash account) = Some true ->
  login login_data db =
  (inr (LoginResponse.mk "Login successful" (UserLogin.email login_data)
          (Account.role account) (Account.full_name account)), db).
Proof. intros Ha Hv. by rewrite login_unfold, Ha, Hv. Qed.

Lemma login_keeps_store (login_data : UserLogin.t)
    (db : gmap string Account.t) :
  snd (login login_data db) = db.
Proof.
  rewrite login_unfold. destruct (db !! UserLogin.email login_data); [| done].
  by destruct (pwd_context_verify _ _) as [[|]|].
Qed.

(** ** Registration *)

(** C3 (amended).  From any store, registering an e-mail that is not in
    the store, passes the validator and comes with a password the password
    library accepts succeeds and inserts the account: the record under the
    e-mail holds the request's full name, role and institution, the hash
    the library returned and the time of the request, and no other key
    changes.  A second registration under the same e-mail then fails with
    [DuplicateAccount] and leaves the store as the first one made it. *)
Theorem register_twice (db : gmap string Account.t)
    (user user' : UserRegister.t) (salt salt' : Salt) (utcnow utcnow' : Z)
    (password_hash : string) :
  validate_edu_email (UserRegister.email user) = true ->
  db !! UserRegister.email user = None ->
  pwd_context_hash salt (UserRegister.password user) = Some password_hash ->
  UserRegister.email user' = UserRegister.email user ->
  exists db1,
    register user salt utcnow db =
      (inr (RegisterResponse.mk "Registration successful"
              (UserRegister.email user) (UserRegister.role user)), db1) /\
    db1 !! UserRegister.email user =
      Some (Account.mk (UserRegister.full_name user) password_hash
              (UserRegister.role user) (UserRegister.institution user)
              utcnow) /\
    (forall e, e <> UserRegister.email user -> db1 !! e = db !! e) /\
    register user' salt' utcnow' db1 = (inl (Http DuplicateAccount), db1).
Proof.
  intros Hv Hfresh Hh He. eexists. split; [by apply register_fresh |].
  split; [apply lookup_insert_eq |]. split.
  - intros e Hne. by rewrite lookup_insert_ne.
  - apply register_present; rewrite He; [done |].
    rewrite lookup_insert_eq. by eexists.
Qed.

(** ** Login *)

(** C4.  For every account in the store, logging in with its e-mail and the
    password whose hash is stored succeeds and returns the stored role and
    full name (given that the password context verifies its own hashes). *)
Theorem login_stored_password (db : gmap string Account.t) (email : string)
    (account : Account.t) (salt : Salt) (password : string) :
  verifies_own_hash pwd_context ->
  db !! email = Some account ->
  pwd_context_hash salt password = Some (Account.password_hash account) ->
  login (UserLogin.mk email password) db =
  (inr (LoginResponse.mk "Login successful" email
          (Account.role account) (Account.full_name account)), db).
Proof.
  intros Hctx Ha Hh. apply login_verified; [done |]. simpl.
  by apply (Hctx salt).
Qed.

(** Registration followed by login with the registered password. *)
Lemma register_then_login (db : gmap string Account.t) (user : UserRegister.t)
    (salt : Salt) (utcnow : Z) (response : RegisterResponse.t) :
  verifies_own_hash pwd_context ->
  fst (register user salt utcnow db) = inr response ->
  let db1 := snd (register user salt utcnow db) in
  login (UserLogin.mk (UserRegister.email user) (UserRegister.password user))
    db1 =
  (inr (LoginResponse.mk "Login successful" (UserRegister.email user)
          (UserRegister.role user) (UserRegister.full_name user)), db1).
Proof.
  intros Hctx Hok db1. subst db1.
  destruct (register_success_inv _ _ _ _ _ Hok) as (Hv & Hfresh & h & Hh).
  rewrite (register_fresh _ _ _ _ _ Hv Hfresh Hh). cbn [snd].
  rewrite login_unfold. cbn [UserLogin.email UserLogin.password].
  rewrite lookup_insert_eq. cbn [Account.password_hash].
  by rewrite (Hctx _ _ _ Hh).
Qed.

(** Every [HTTPException] of [login] is [InvalidCredentials], raised
    exactly when the e-mail is absent or the library reports a mismatch. *)
Lemma login_http_failure (db : gmap string Account.t)
    (login_data : UserLogin.t) :
  (fst (login login_data db) = inl (Http InvalidCredentials) <->
   db !! UserLogin.email login_data = None \/
   exists account,
     db !! UserLogin.email login_data = Some account /\
     pwd_context_verify (UserLogin.password login_data)
       (Account.password_hash account) = Some false) /\
  (forall e : HTTPException,
      fst (login login_data db) = inl (Http e) -> e = InvalidCredentials).
Proof.
  rewrite login_unfold.
  destruct (db !! UserLogin.email login_data) as [a|] eqn:Ha; simpl.
  - destruct (pwd_context_verify _ _) as [[|]|] eqn:Hv; simpl.
    + split; [| done]. split; [done |].
      intros [? | (a' & [= <-] & Hv')]; congruence.
    + split; [| congruence]. split; [| done]. intros _. right. by exists a.
    + split; [| done]. split; [done |].
      intros [? | (a' & [= <-] & Hv')]; congruence.
  - split; [| congruence]. split; [auto | done].
Qed.

(** C5 fails on the code.  When the library raises on the supplied
    password, a login under a registered e-mail ends in the library's
    exception (the service answers 500), while the same password under an
    e-mail that is not registered gets [InvalidCredentials] (401): the
    password is verified only for registered e-mails and nothing catches
    the exception, so the two outcomes tell the e-mails apart. *)
Theorem login_reveals_registration (db : gmap string Account.t)
    (email other password : string) (account : Account.t) :
  db !! email = Some account ->
  db !! other = None ->
  pwd_context_verify password (Account.password_hash account) = None ->
  login (UserLogin.mk email password) db = (inl LibraryError, db) /\
  login (UserLogin.mk other password) db = (inl (Http InvalidCredentials), db) /\
  fst (login (UserLogin.mk email password) db)
  <> fst (login (UserLogin.mk other password) db).
Proof.
  intros Ha Ho Hv.
  assert (H1 : login (UserLogin.mk email password) db = (inl LibraryError, db)).
  { rewrite login_unfold. simpl. by rewrite Ha, Hv. }
  assert (H2 : login (UserLogin.mk other password) db
               = (inl (Http InvalidCredentials), db)).
  { by apply login_absent. }
  split; [done |]. split; [done |]. by rewrite H1, H2.
Qed.

End BackendFacts.

(** ** The sign-up form, unfolded *)

Lemma register_form_error_keeps (f : RegisterForm.t)
    (ss : gmap string session_value) (e : form_error) :
  fst (register_form f ss) = st_error e -> snd (register_form f ss) = ss.
Proof.
  unfold register_form.
  repeat match goal with
         | |- context [if ?b then _ else _] => destruct b
         end; simpl; done.
Qed.

(** ** Failures and the store *)

Section StoreIntegrity.

Context {pwd_context : CryptContext}.

(** C7.  A failing [register] raises [InvalidEmailDomain] or
    [DuplicateAccount] and leaves the store as it was; [login] never writes
    to the store, whether it fails or not; a sign-up form that shows an
    error (the [ValidationError] cases and the e-mail one) leaves the
    session state as it was; and a [register] that ends in an exception of
    the password library leaves the store as it was too. *)
Theorem failure_keeps_store :
  (forall (user : UserRegister.t) (salt : Salt) (utcnow : Z)
          (db : gmap string Account.t) (e : HTTPException),
      fst (register user salt utcnow db) = inl (Http e) ->
      (e = InvalidEmailDomain \/ e = DuplicateAccount) /\
      snd (register user salt utcnow db) = db) /\
  (forall (login_data : UserLogin.t) (db : gmap string Account.t),
      snd (login login_data db) = db) /\
  (forall (f : RegisterForm.t) (ss : gmap string session_value)
          (e : form_error),
      fst (register_form f ss) = st_error e ->
      snd (register_form f ss) = ss) /\
  (forall (user : UserRegister.t) (salt : Salt) (utcnow : Z)
          (db : gmap string Account.t),
      fst (register user salt utcnow db) = inl LibraryError ->
      snd (register user salt utcnow db) = db).
Proof.
  split; [| split; [| split]].
  - intros user salt utcnow db e He.
    split; [| by apply (register_failure_keeps _ _ _ _ _ He)].
    revert He. rewrite register_unfold.
    destruct (validate_edu_email _); simpl.
    + destruct (db !! UserRegister.email user); simpl.
      * intros [= <-]. auto.
      * by destruct (pwd_context_hash _ _).
    + intros [= <-]. auto.
  - apply login_keeps_store.
  - apply register_form_error_keeps.
  - intros user salt utcnow db. apply register_failure_keeps.
Qed.

(** C8 fails on the backend: a request whose full name, password, role and
    institution are all empty meets no validation.  It is registered, with
    the hash the library returns for the empty password (and ends in the
    library's exception only if the library refuses the empty password,
    which passlib does not).  The sign-up form rejects the same input with
    "Please fill in all required fields". *)
Theorem register_accepts_empty_fields (salt : Salt) (utcnow : Z)
    (ss : gmap string session_value) :
  let user := UserRegister.mk "" "a@mit.edu" "" "" "" in
  let form := RegisterForm.mk "" "a@mit.edu" "" "" "" "" true in
  register user salt utcnow ∅ =
    match pwd_context_hash salt "" with
    | Some password_hash =>
        (inr (RegisterResponse.mk "Registration successful" "a@mit.edu" ""),
         {[ "a@mit.edu" := Account.mk "" password_hash "" "" utcnow ]})
    | None => (inl LibraryError, ∅)
    end /\
  register_form form ss = (st_error FillAllFields, ss).
Proof.
  intros user form. split; [| done]. rewrite register_unfold. simpl.
  by destruct (pwd_context_hash salt "").
Qed.

(** C10 (amended).  The store is keyed by the e-mail as typed.  If [e] is
    registered and [e'] differs from it only by letter case and is not
    itself registered, then registering [e'] (with a domain the validator
    accepts and a password the library accepts) succeeds and adds a second
    account next to [e]'s, and logging in with [e'] fails with
    [InvalidCredentials] whatever the password.  The validator, which
    lowercases, does not tell the two apart. *)
Theorem email_key_case_sensitive (db : gmap string Account.t) (e e' : string)
    (account : Account.t) (user : UserRegister.t) (salt : Salt) (utcnow : Z)
    (password_hash password : string) :
  db !! e = Some account ->
  PyStr.lower e' = PyStr.lower e ->
  e' <> e ->
  db !! e' = None ->
  UserRegister.email user = e' ->
  validate_edu_email e' = true ->
  pwd_context_hash salt (UserRegister.password user) = Some password_hash ->
  exists db',
    register user salt utcnow db =
      (inr (RegisterResponse.mk "Registration successful" e'
              (UserRegister.role user)), db') /\
    db' !! e = Some account /\
    db' !! e' =
      Some (Account.mk (UserRegister.full_name user) password_hash
              (UserRegister.role user) (UserRegister.institution user)
              utcnow) /\
    login (UserLogin.mk e' password) db = (inl (Http InvalidCredentials), db) /\
    validate_edu_email e = true.
Proof.
  intros Ha Hcase Hne Hfresh <- Hv Hh. eexists. repeat split.
  - by apply register_fresh.
  - by rewrite lookup_insert_ne.
  - apply lookup_insert_eq.
  - by apply login_absent.
  - by rewrite <- (validate_edu_email_case _ _ Hcase).
Qed.

End StoreIntegrity.

(** C9.  In the sign-up form, a submission whose password is shorter than
    8 characters, or differs from its confirmation, or comes without the
    terms accepted, shows one of the [ValidationError] messages and leaves
    the session state untouched: nobody is logged in by it. *)
Theorem register_form_validation (f : RegisterForm.t)
    (ss : gmap string session_value) :
  (String.length (RegisterForm.password f) < 8)%nat \/
  RegisterForm.password f <> RegisterForm.confirm_password f \/
  RegisterForm.agree_terms f = false ->
  exists e,
    register_form f ss = (st_error e, ss) /\ is_ValidationError e = true.
Proof.
  intros H. unfold register_form.
  destruct (negb (all_truthy _)); [by exists FillAllFields |].
  destruct (Nat.ltb_spec (String.length (RegisterForm.password f)) 8);
    [by exists PasswordTooShort |].
  case_bool_decide as Hpw; [by exists PasswordsDoNotMatch |].
  destruct (RegisterForm.agree_terms f); simpl; [| by exists TermsNotAgreed].
  exfalso. destruct H as [H | [H | H]]; [lia | | done].
  apply H. by apply dec_stable.
Qed.

(** ** The demonstration contexts, and the theorems at concrete inputs *)

Lemma demo_verifies_own_hash : verifies_own_hash DemoContext.ctx.
Proof.
  intros salt password hashed [= <-]. simpl.
  by rewrite String.eqb_refl.
Qed.

(** The round trip is a property of the password context alone: the
    wrappers [hash_password] and [verify_password] add nothing to it, and
    contexts exist on either side. *)
Lemma demo_rejects_other_password (salt : ascii) (p q : string) :
  p <> q ->
  exists hashed,
    DemoContext.hash salt p = Some hashed /\
    DemoContext.verify q hashed = Some false.
Proof.
  intros Hpq. eexists. split; [reflexivity |]. simpl. f_equal.
  apply String.eqb_neq. congruence.
Qed.

Lemma prefix_verifies_own_hash : verifies_own_hash PrefixContext.ctx.
Proof.
  intros salt password hashed [= <-]. simpl.
  by rewrite String.eqb_refl.
Qed.

Lemma prefix_accepts_other_password :
  let p := PrefixContext.repeat_char "a" 72 in
  let q := p +:+ "b" in
  p <> q /\
  exists hashed,
    PrefixContext.hash "s" p = Some hashed /\
    PrefixContext.verify q hashed = Some true.
Proof. split; [discriminate |]. eexists. split; reflexivity. Qed.

Lemma bcrypt_limits_verifies_own_hash : verifies_own_hash BcryptLimits.ctx.
Proof.
  intros salt password hashed. simpl.
  unfold BcryptLimits.hash, BcryptLimits.verify.
  destruct (BcryptLimits.refused password); [done |].
  intros [= <-]. simpl. by rewrite String.eqb_refl.
Qed.

(** C3 as stated fails: a request with a valid, unregistered e-mail whose
    password holds a NUL character is not registered.  The library raises
    while the record is built, the service answers 500 and the store stays
    empty. *)
Lemma register_refused_password :
  let user :=
    UserRegister.mk "Ada" "ada@mit.edu"
      ("secret" +:+ String "000"%char "pw") "student" "MIT" in
  validate_edu_email (UserRegister.email user) = true /\
  (∅ : gmap string Account.t) !! UserRegister.email user = None /\
  @register BcryptLimits.ctx user "s"%char 0 ∅ = (inl LibraryError, ∅).
Proof. repeat split. Qed.

Lemma register_twice_witness :
  let user := UserRegister.mk "Ada" "ada@mit.edu" "secret-pw" "student" "MIT" in
  exists db1 : gmap string Account.t,
    @register BcryptLimits.ctx user "s"%char 0 ∅ =
      (inr (RegisterResponse.mk "Registration successful" "ada@mit.edu"
              "student"), db1) /\
    db1 !! "ada@mit.edu" =
      Some (Account.mk "Ada" "ssecret-pw" "student" "MIT" 0) /\
    (forall e, e <> "ada@mit.edu" ->
               db1 !! e = (∅ : gmap string Account.t) !! e) /\
    @register BcryptLimits.ctx user "t"%char 1 db1
      = (inl (Http DuplicateAccount), db1).
Proof.
  exact (@register_twice BcryptLimits.ctx ∅
           (UserRegister.mk "Ada" "ada@mit.edu" "secret-pw" "student" "MIT")
           (UserRegister.mk "Ada" "ada@mit.edu" "secret-pw" "student" "MIT")
           "s"%char "t"%char 0 1 "ssecret-pw"
           eq_refl eq_refl eq_refl eq_refl).
Defined.

Lemma login_stored_password_witness :
  let account := Account.mk "Ada" "ssecret-pw" "student" "MIT" 0 in
  @login DemoContext.ctx (UserLogin.mk "ada@mit.edu" "secret-pw")
    {[ "ada@mit.edu" := account ]} =
  (inr (LoginResponse.mk "Login successful" "ada@mit.edu" "student" "Ada"),
   {[ "ada@mit.edu" := account ]}).
Proof.
  intros account.
  apply (@login_stored_password DemoContext.ctx _ _ account "s"%char).
  - exact demo_verifies_own_hash.
  - apply lookup_singleton_eq.
  - reflexivity.
Defined.

Lemma login_reveals_registration_witness :
  let account := Account.mk "Ada" "ssecret-pw" "student" "MIT" 0 in
  let db : gmap string Account.t := {[ "ada@mit.edu" := account ]} in
  let password := "x" +:+ String "000"%char "y" in
  @login BcryptLimits.ctx (UserLogin.mk "ada@mit.edu" password) db
    = (inl LibraryError, db) /\
  @login BcryptLimits.ctx (UserLogin.mk "eve@mit.edu" password) db
    = (inl (Http InvalidCredentials), db) /\
  fst (@login BcryptLimits.ctx (UserLogin.mk "ada@mit.edu" password) db)
  <> fst (@login BcryptLimits.ctx (UserLogin.mk "eve@mit.edu" password) db).
Proof.
  intros account db password.
  apply (@login_reveals_registration BcryptLimits.ctx db "ada@mit.edu"
           "eve@mit.edu" password account).
  - apply lookup_singleton_eq.
  - apply lookup_singleton_ne. discriminate.
  - reflexivity.
Defined.

Lemma register_form_validation_witness :
  exists e,
    register_form
      (RegisterForm.mk "Ada" "ada@mit.edu" "short" "short" "Student" "MIT" true)
      ∅ = (st_error e, ∅) /\ is_ValidationError e = true.
Proof.
  apply register_form_validation. left. simpl. lia.
Defined.

(** C10 as stated fails in two ways.  When the case variant is itself
    registered, the duplicate check does fire for it; and a request whose
    password the library refuses is not registered either. *)
Lemma case_variant_registration_fails :
  let account := Account.mk "Ada" "ssecret-pw" "student" "MIT" 0 in
  let variant := Account.mk "Eve" "tother-pw" "student" "MIT" 1 in
  let db : gmap string Account.t :=
    {[ "ada@mit.edu" := account; "Ada@MIT.edu" := variant ]} in
  let user := UserRegister.mk "Eve" "Ada@MIT.edu" "other-pw" "student" "MIT" in
  let refused :=
    UserRegister.mk "Eve" "Ada@MIT.edu" ("other" +:+ String "000"%char "pw")
      "student" "MIT" in
  PyStr.lower "Ada@MIT.edu" = PyStr.lower "ada@mit.edu" /\
  "Ada@MIT.edu" <> "ada@mit.edu" /\
  validate_edu_email "Ada@MIT.edu" = true /\
  db !! "ada@mit.edu" = Some account /\
  db !! "Ada@MIT.edu" = Some variant /\
  @register BcryptLimits.ctx user "t"%char 1 db
    = (inl (Http DuplicateAccount), db) /\
  @register BcryptLimits.ctx refused "t"%char 1 {[ "ada@mit.edu" := account ]}
    = (inl LibraryError, {[ "ada@mit.edu" := account ]}).
Proof. repeat split; discriminate. Qed.

Lemma email_key_case_sensitive_witness :
  let account := Account.mk "Ada" "ssecret-pw" "student" "MIT" 0 in
  let user := UserRegister.mk "Eve" "Ada@MIT.edu" "other-pw" "student" "MIT" in
  let db : gmap string Account.t := {[ "ada@mit.edu" := account ]} in
  exists db',
    @register BcryptLimits.ctx user "t"%char 1 db =
      (inr (RegisterResponse.mk "Registration successful" "Ada@MIT.edu"
              "student"), db') /\
    db' !! "ada@mit.edu" = Some account /\
    db' !! "Ada@MIT.edu" =
      Some (Account.mk "Eve" "tother-pw" "student" "MIT" 1) /\
    @login BcryptLimits.ctx (UserLogin.mk "Ada@MIT.edu" "secret-pw") db =
      (inl (Http InvalidCredentials), db) /\
    validate_edu_email "ada@mit.edu" = true.
Proof.
  intros account user db.
  apply (@email_key_case_sensitive BcryptLimits.ctx db "ada@mit.edu"
           "Ada@MIT.edu" account user "t"%char 1 "tother-pw" "secret-pw").
  - apply lookup_singleton_eq.
  - reflexivity.
  - discriminate.
  - apply lookup_singleton_ne. discriminate.
  - reflexivity.
  - reflexivity.
  - reflexivity.
Defined.

(** * Further properties of the templates *)

(** ** More on strings *)

Section MoreStrFacts.

Import PyStr.

Lemma str_app_cons (x : ascii) (a b : string) :
  String x a +:+ b = String x (a +:+ b).
Proof. reflexivity. Qed.

Lemma str_app_assoc (a b c : string) : (a +:+ b) +:+ c = a +:+ (b +:+ c).
Proof.
  induction a as [|x a IH]; [done |]. by rewrite !str_app_cons, IH.
Qed.

Lemma str_app_empty_r (a : string) : a +:+ EmptyString = a.
Proof. induction a as [|x a IH]; [done |]. by rewrite str_app_cons, IH. Qed.

Lemma lower_app (a b : string) : lower (a +:+ b) = lower a +:+ lower b.
Proof.
  induction a as [|x a IH]; [done |].
  rewrite str_app_cons. simpl. by rewrite IH, str_app_cons.
Qed.

Lemma Occurs_refl (a : string) : Occurs a a.
Proof. exists EmptyString, EmptyString. by rewrite str_app_empty_r. Qed.

Lemma Occurs_trans (a b c : string) : Occurs a b -> Occurs b c -> Occurs a c.
Proof.
  intros (p1 & q1 & ->) (p2 & q2 & ->).
  exists (p2 +:+ p1), (q1 +:+ q2). by rewrite !str_app_assoc.
Qed.

Lemma Occurs_app_l (a pre s : string) : Occurs a s -> Occurs a (pre +:+ s).
Proof.
  intros (p & q & ->). exists (pre +:+ p), q. by rewrite !str_app_assoc.
Qed.

Lemma Occurs_app_r (a s post : string) : Occurs a s -> Occurs a (s +:+ post).
Proof.
  intros (p & q & ->). exists p, (q +:+ post). by rewrite !str_app_assoc.
Qed.

(** Splitting distributes over a separator in the middle. *)
Lemma split_app (sep : ascii) (a b : string) :
  split sep (a +:+ String sep b) = (split sep a ++ split sep b)%list.
Proof.
  induction a as [|c a IH].
  - change (EmptyString +:+ String sep b) with (String sep b). simpl.
    by rewrite Ascii.eqb_refl.
  - rewrite str_app_cons. simpl.
    rewrite IH. destruct (Ascii.eqb c sep); [done |].
    destruct (split_shape sep a) as [[_ ->] | (? & ? & l & _ & _ & Hl & ->)].
    + done.
    + by destruct l.
Qed.

Lemma split_length_ge_2 (sep : ascii) (s : string) :
  (2 <=? List.length (split sep s))%nat = contains (String sep EmptyString) s.
Proof.
  destruct (split_shape sep s) as [[-> ->] | (pre & d & l & -> & _ & Hl & ->)].
  - done.
  - destruct l as [|p l]; [done |].
    rewrite length_app. simpl.
    replace (List.length l + 1)%nat with (S (List.length l)) by lia.
    symmetry. apply contains_spec. by exists pre, d.
Qed.

End MoreStrFacts.

Lemma form_accepts_iff (email : string) :
  form_accepts email = true <->
  exists d, In d form_domains /\ PyStr.Occurs d (PyStr.lower email).
Proof.
  unfold form_accepts. rewrite any_true_iff.
  by setoid_rewrite contains_spec.
Qed.

(** Every entry of the backend's allow-list contains an entry of the
    forms' list. *)
Lemma allowed_has_form_domain (a : string) :
  In a allowed_domains -> exists d, In d form_domains /\ PyStr.Occurs d a.
Proof.
  simpl. intros H.
  repeat (destruct H as [<- | H];
          [ first [ exists ".edu"; split; [simpl; tauto |];
                    apply contains_spec; reflexivity
                  | exists ".ac."; split; [simpl; tauto |];
                    apply contains_spec; reflexivity
                  | exists ".school"; split; [simpl; tauto |];
                    apply contains_spec; reflexivity ] |]).
  done.
Qed.

(** The lowercased domain occurs in the lowercased e-mail. *)
Lemma lower_domain_occurs (email : string) :
  PyStr.Occurs (PyStr.lower (email_domain email)) (PyStr.lower email).
Proof.
  destruct (email_domain_spec email) as [_ [He | [pre He]]].
  - rewrite <- He. apply Occurs_refl.
  - rewrite He at 2. rewrite !lower_app.
    apply Occurs_app_l, Occurs_app_l, Occurs_refl.
Qed.

(** ** The two e-mail tests compared *)

(** X1.  Whatever the backend validator accepts, the test of the two
    frontend forms accepts as well. *)
Theorem backend_accepts_form_accepts (email : string) :
  validate_edu_email email = true -> form_accepts email = true.
Proof.
  rewrite validate_edu_email_occurs, form_accepts_iff.
  intros (a & Hin & Hocc).
  destruct (allowed_has_form_domain a Hin) as (d & Hd & Hda).
  exists d. split; [done |].
  eapply Occurs_trans; [exact Hda |].
  eapply Occurs_trans; [exact Hocc |]. apply lower_domain_occurs.
Qed.

Lemma backend_accepts_form_accepts_witness :
  form_accepts "Sam@Uni.School.NZ" = true.
Proof. apply backend_accepts_form_accepts. reflexivity. Defined.

(** X2.  The backend validator ignores everything up to the last [@]: an
    address is judged as its domain alone would be.  The forms look at the
    local part too, so an address whose local part contains one of their
    four substrings passes them whatever its domain. *)
Theorem local_part_ignored_by_backend_only (local domain : string) :
  PyStr.contains "@" domain = false ->
  validate_edu_email (local +:+ "@" +:+ domain) = validate_edu_email domain /\
  (form_accepts local = true ->
   form_accepts (local +:+ "@" +:+ domain) = true).
Proof.
  intros Hno. split.
  - unfold validate_edu_email.
    rewrite (DomainOf_unique (local +:+ "@" +:+ domain) domain),
            (DomainOf_unique domain domain); [done | |].
    + split; auto.
    + split; [done |]. right. by exists local.
  - rewrite !form_accepts_iff. intros (d & Hd & Hocc).
    exists d. split; [done |]. rewrite lower_app. by apply Occurs_app_r.
Qed.

Lemma local_part_ignored_by_backend_only_witness :
  validate_edu_email (".edu" +:+ "@" +:+ "gmail.com")
  = validate_edu_email "gmail.com" /\
  (form_accepts ".edu" = true ->
   form_accepts (".edu" +:+ "@" +:+ "gmail.com") = true).
Proof. apply local_part_ignored_by_backend_only. reflexivity. Defined.

(** ** The e-mail check endpoint *)

Section EndpointFacts.

Context {pwd_context : CryptContext}.

(** X3.  [GET /api/auth/validate-email] tells in advance what [register]
    does with the address: it reports "not educational" exactly when
    [register] raises [InvalidEmailDomain], whatever the store and the other
    fields, and its message is the positive one exactly when the flag is
    set. *)
Theorem validate_email_predicts_register (user : UserRegister.t)
    (salt : Salt) (utcnow : Z) (db : gmap string Account.t) :
  let r := validate_email (UserRegister.email user) in
  (ValidateEmailResponse.is_valid_educational r = false <->
   fst (register user salt utcnow db) = inl (Http InvalidEmailDomain)) /\
  (ValidateEmailResponse.message r = "Valid educational email" <->
   ValidateEmailResponse.is_valid_educational r = true) /\
  ValidateEmailResponse.email r = UserRegister.email user.
Proof.
  simpl. rewrite register_unfold.
  destruct (validate_edu_email (UserRegister.email user)); simpl.
  - split; [| done].
    destruct (db !! UserRegister.email user); simpl; [split; discriminate |].
    destruct (pwd_context_hash _ _); simpl; split; discriminate.
  - split; [done |]. split; [split; discriminate | done].
Qed.

End EndpointFacts.

(** ** Sequences of requests *)

(** An invariant of every step is an invariant of the fold. *)
Lemma foldl_invariant {S E} (step : S -> E -> S) (P : S -> Prop) :
  (forall s e, P s -> P (step s e)) ->
  forall es s, P s -> P (foldl step s es).
Proof.
  intros Hstep es. induction es as [|e es IH]; intros s Hs; simpl; [done |].
  apply IH, Hstep, Hs.
Qed.

Section ServiceFacts.

Context {pwd_context : CryptContext}.

Lemma register_keeps_account (user : UserRegister.t) (salt : Salt)
    (utcnow : Z) (db : gmap string Account.t) (e : string) (a : Account.t) :
  db !! e = Some a -> snd (register user salt utcnow db) !! e = Some a.
Proof.
  intros Ha. rewrite register_unfold.
  destruct (validate_edu_email _); simpl; [| done].
  destruct (db !! UserRegister.email user) eqn:Hu; simpl; [done |].
  destruct (pwd_context_hash _ _); simpl; [| done].
  rewrite lookup_insert_ne; [done |]. intros Heq. congruence.
Qed.

Lemma serve_keeps_account (db : gmap string Account.t) (r : request)
    (e : string) (a : Account.t) :
  db !! e = Some a -> serve db r !! e = Some a.
Proof.
  intros Ha. destruct r as [user salt utcnow | d | ?]; simpl.
  - by apply register_keeps_account.
  - by rewrite login_keeps_store.
  - done.
Qed.

Lemma register_new_key_valid (user : UserRegister.t) (salt : Salt)
    (utcnow : Z) (db : gmap string Account.t) (e : string) :
  is_Some (snd (register user salt utcnow db) !! e) ->
  is_Some (db !! e) \/ validate_edu_email e = true.
Proof.
  rewrite register_unfold.
  destruct (validate_edu_email (UserRegister.email user)) eqn:Hv; simpl;
    [| auto].
  destruct (db !! UserRegister.email user) eqn:Hu; simpl; [auto |].
  destruct (pwd_context_hash _ _); simpl; [| auto].
  destruct (decide (UserRegister.email user = e)) as [<- | Hne]; [auto |].
  rewrite lookup_insert_ne by done. auto.
Qed.

(** X4.  An account, once in the store, stays as it is: no sequence of
    register, login and validate-email requests removes it or changes any
    of its fields. *)
Theorem accounts_are_permanent (rs : list request)
    (db : gmap string Account.t) (e : string) (a : Account.t) :
  db !! e = Some a -> serve_all rs db !! e = Some a.
Proof.
  unfold serve_all. revert db.
  induction rs as [|r rs IH]; intros db Ha; simpl; [done |].
  apply IH. by apply serve_keeps_account.
Qed.

(** X5.  Every e-mail the service ever stores passes the validator: if all
    keys of the store do, so do all keys after any sequence of requests. *)
Theorem stored_emails_pass_validator (rs : list request)
    (db : gmap string Account.t) :
  (forall e, is_Some (db !! e) -> validate_edu_email e = true) ->
  forall e, is_Some (serve_all rs db !! e) -> validate_edu_email e = true.
Proof.
  unfold serve_all.
  apply (foldl_invariant serve
           (fun m => forall e, is_Some (m !! e) -> validate_edu_email e = true)).
  intros m r Hm e He. destruct r as [user salt utcnow | d | ?]; simpl in He.
  - destruct (register_new_key_valid _ _ _ _ _ He); auto.
  - rewrite login_keeps_store in He. auto.
  - auto.
Qed.

(** X6.  After a registration that succeeded the user can log in with the
    registered password however many other requests the service has handled
    in between, and gets the role and full name given at registration
    (the password context verifying its own hashes). *)
Theorem login_after_any_requests (db : gmap string Account.t)
    (user : UserRegister.t) (salt : Salt) (utcnow : Z) (rs : list request)
    (response : RegisterResponse.t) :
  verifies_own_hash pwd_context ->
  fst (register user salt utcnow db) = inr response ->
  let db' := serve_all rs (snd (register user salt utcnow db)) in
  login (UserLogin.mk (UserRegister.email user) (UserRegister.password user))
    db' =
  (inr (LoginResponse.mk "Login successful" (UserRegister.email user)
          (UserRegister.role user) (UserRegister.full_name user)), db').
Proof.
  intros Hctx Hok db'.
  destruct (register_success_inv _ _ _ _ _ Hok) as (Hv & Hfresh & h & Hh).
  set (account := Account.mk (UserRegister.full_name user) h
                    (UserRegister.role user) (UserRegister.institution user)
                    utcnow).
  assert (Hin : db' !! UserRegister.email user = Some account).
  { subst db'. unfold serve_all.
    apply (foldl_invariant serve
             (fun m => m !! UserRegister.email user = Some account)).
    - intros m r Hm. by apply serve_keeps_account.
    - rewrite (register_fresh _ _ _ _ _ Hv Hfresh Hh). apply lookup_insert_eq. }
  rewrite login_unfold. cbn [UserLogin.email UserLogin.password].
  rewrite Hin. cbn [account Account.password_hash Account.role
                    Account.full_name].
  by rewrite (Hctx _ _ _ Hh).
Qed.

(** X7.  A registration, successful or not, does not change the outcome of
    a login under any other e-mail. *)
Theorem register_leaves_other_logins (user : UserRegister.t) (salt : Salt)
    (utcnow : Z) (db : gmap string Account.t) (login_data : UserLogin.t) :
  UserLogin.email login_data <> UserRegister.email user ->
  fst (login login_data (snd (register user salt utcnow db)))
  = fst (login login_data db).
Proof.
  intros Hne. rewrite register_unfold.
  destruct (validate_edu_email _); simpl; [| done].
  destruct (db !! UserRegister.email user); simpl; [done |].
  destruct (pwd_context_hash _ _); simpl; [| done].
  rewrite !login_unfold, lookup_insert_ne by done.
  destruct (db !! UserLogin.email login_data); [| done].
  by destruct (pwd_context_verify _ _) as [[|]|].
Qed.

End ServiceFacts.

(** ** The session of the frontend *)

Lemma foldl_delete_lookup {V} (ks : list string) (m : gmap string V)
    (k : string) :
  foldl (fun acc key => delete key acc) m ks !! k
  = if bool_decide (k ∈ ks) then None else m !! k.
Proof.
  revert m. induction ks as [|x ks IH]; intros m; simpl; [done |].
  rewrite IH. destruct (decide (k = x)) as [-> | Hne].
  - rewrite lookup_delete_eq.
    rewrite (bool_decide_eq_true_2 (x ∈ x :: ks)) by constructor.
    by case_bool_decide.
  - rewrite lookup_delete_ne by done.
    destruct (decide (k ∈ ks)) as [Hk | Hk].
    + rewrite !bool_decide_eq_true_2; [done | by constructor | done].
    + rewrite !bool_decide_eq_false_2; [done | | done].
      by intros [? | ?]%elem_of_cons.
Qed.

Lemma logout_empty (ss : gmap string session_value) : logout ss = ∅.
Proof.
  apply map_eq. intros k. unfold logout, session_keys.
  rewrite foldl_delete_lookup, lookup_empty.
  case_bool_decide as Hk; [done |].
  destruct (ss !! k) as [v|] eqn:Hv; [| done].
  destruct Hk. apply (list_elem_of_fmap_2 fst _ (k, v)).
  by apply elem_of_map_to_list.
Qed.

Lemma register_form_success (f : RegisterForm.t)
    (ss ss' : gmap string session_value) (name : string) :
  register_form f ss = (st_success name, ss') ->
  ss' !! "logged_in" = Some (SBool true) /\
  ss' !! "user_email" = Some (SStr (RegisterForm.email f)) /\
  ss' !! "user_role" = Some (SStr (PyStr.lower (RegisterForm.role f))) /\
  ss' !! "user_institution" = Some (SStr (RegisterForm.institution_input f)) /\
  ss' !! "full_name" = Some (SStr (RegisterForm.full_name f)).
Proof.
  unfold register_form.
  repeat match goal with
         | |- context [if ?b then _ else _] => destruct b
         end; intros [= <- <-]; by simplify_map_eq.
Qed.

Section FrontendFacts.

Variable title : string -> string.

Lemma login_form_success (email password e : string)
    (ss ss' : gmap string session_value) :
  login_form title email password ss = (login_st_success e, ss') ->
  ss' !! "logged_in" = Some (SBool true) /\
  ss' !! "user_email" = Some (SStr email) /\
  ss' !! "user_role" =
    Some (SStr (if any (fun word => PyStr.contains word (PyStr.lower email))
                     role_words
                then "professor" else "student")) /\
  ss' !! "full_name" = ss !! "full_name".
Proof.
  unfold login_form.
  destruct (_ && _); [| done].
  destruct (any _ form_domains); [| done].
  intros [= <- <-]. by simplify_map_eq.
Qed.

Lemma login_form_failure (email password : string) (e : login_error)
    (ss ss' : gmap string session_value) :
  login_form title email password ss = (login_st_error e, ss') -> ss' = ss.
Proof.
  unfold login_form.
  destruct (_ && _); [| by intros [= _ <-]].
  destruct (any _ form_domains); [done | by intros [= _ <-]].
Qed.

Lemma session_ok_logged_out (ss : gmap string session_value) (v : session_value) :
  ss !! "logged_in" = Some v -> value_truthy v = false -> session_ok ss.
Proof. intros Hv Hf v' Hv' Ht. congruence. Qed.

Lemma session_ok_logged_in (ss : gmap string session_value) (ue : session_value)
    (r : string) :
  ss !! "user_email" = Some ue -> ss !! "user_role" = Some (SStr r) ->
  session_ok ss.
Proof. intros He Hr v _ _. split; [by eexists | by exists r]. Qed.

(** One run keeps [session_ok] and, from a [session_ok] session, does not
    stop at an [AttributeError]. *)
Lemma script_session_ok (ev : event) (ss : gmap string session_value) :
  session_ok ss ->
  fst (script title ev ss) <> AttributeError /\
  session_ok (snd (script title ev ss)).
Proof.
  intros Hok. unfold script.
  set (ss0 := if bool_decide (is_Some (ss !! "logged_in")) then ss
              else <["logged_in" := SBool false]> ss).
  assert (Hok0 : session_ok ss0).
  { subst ss0. case_bool_decide; [done |].
    apply (session_ok_logged_out _ (SBool false)); [| done].
    apply lookup_insert_eq. }
  assert (Hin : is_Some (ss0 !! "logged_in")).
  { subst ss0. case_bool_decide; [done |]. rewrite lookup_insert_eq. by eexists. }
  clearbody ss0. destruct Hin as [v Hv]. rewrite Hv.
  destruct (value_truthy v) eqn:Ht; simpl.
  - destruct (Hok0 v Hv Ht) as [[ue Hue] [r Hr]].
    unfold main_dashboard. rewrite Hue, Hr.
    destruct ev; simpl; (split; [done |]); try done.
    rewrite logout_empty. intros v'. by rewrite lookup_empty.
  - destruct ev as [| email password | f | | |]; simpl; try done.
    + destruct (login_form title email password ss0) as [[e | e] ss'] eqn:Hl;
        simpl; (split; [done |]).
      * by rewrite (login_form_failure _ _ _ _ _ Hl).
      * destruct (login_form_success _ _ _ _ _ Hl) as (_ & He & Hr & _).
        by eapply session_ok_logged_in.
    + destruct (register_form f ss0) as [[e | name] ss'] eqn:Hf; simpl;
        (split; [done |]).
      * pose proof (register_form_error_keeps f ss0 e) as Hk.
        rewrite Hf in Hk. simpl in Hk. by rewrite Hk.
      * destruct (register_form_success _ _ _ _ Hf) as (_ & He & Hr & _).
        by eapply session_ok_logged_in.
    + split; [done |].
      apply (session_ok_logged_in _ (SStr "prof.smith@harvard.edu")
               "professor"); unfold demo_professor; by simplify_map_eq.
    + split; [done |].
      apply (session_ok_logged_in _ (SStr "student.john@stanford.edu")
               "student"); unfold demo_student; by simplify_map_eq.
Qed.

(** X8.  Starting from a fresh session, no sequence of interactions makes a
    run of the script stop at an [AttributeError]: whenever the dashboard is
    shown, the [user_email] and [user_role] it reads are there. *)
Theorem no_attribute_error (evs : list event) (ev : event) :
  fst (script title ev (play title evs ∅)) <> AttributeError.
Proof.
  apply script_session_ok. unfold play.
  apply (foldl_invariant (fun ss ev => snd (script title ev ss)) session_ok).
  - intros ss e Hss. by apply script_session_ok.
  - intros v. by rewrite lookup_empty.
Qed.

End FrontendFacts.

(** ** Signing in, signing up and logging out *)

Lemma str_app_nonempty (a b : string) (c : ascii) :
  a +:+ String c b <> EmptyString.
Proof. by destruct a. Qed.

Lemma contains_at_nonempty (email : string) :
  PyStr.contains "@" email = true -> PyStr.truthy email = true.
Proof. by destruct email. Qed.

Section FrontendFlows.

Variable title : string -> string.

(** X9.  The sign-in form never looks at what the password is: with the
    same e-mail and session, any two non-empty passwords give the same
    result and the same session. *)
Theorem login_form_ignores_password (email p q : string)
    (ss : gmap string session_value) :
  p <> EmptyString -> q <> EmptyString ->
  login_form title email p ss = login_form title email q ss.
Proof.
  intros Hp Hq. unfold login_form.
  by destruct p, q.
Qed.

(** X10.  After a successful sign-in the next run shows the dashboard, and
    it is the professor's exactly when the lowercased e-mail contains
    "prof", "staff" or "faculty" anywhere; the sidebar welcomes by the
    e-mail unless a [full_name] was already in the session. *)
Theorem login_then_dashboard (email password e : string)
    (ss ss' : gmap string session_value) :
  login_form title email password ss = (login_st_success e, ss') ->
  exists sb d,
    script title NoEvent ss' = (Rendered (dashboard_view sb d), ss') /\
    (d = professor_dashboard <->
     exists word, In word role_words /\ PyStr.Occurs word (PyStr.lower email)) /\
    welcome sb = default (SStr email) (ss !! "full_name").
Proof.
  intros Hl.
  destruct (login_form_success _ _ _ _ _ _ Hl) as (Hin & He & Hr & Hn).
  unfold script. rewrite Hin. simpl.
  rewrite Hin. simpl. unfold main_dashboard. rewrite He, Hr, Hn.
  eexists _, _. split; [reflexivity |]. split; [| done].
  assert (Hany :
    any (fun word => PyStr.contains word (PyStr.lower email)) role_words = true
    <-> exists word,
          In word role_words /\ PyStr.Occurs word (PyStr.lower email)).
  { rewrite any_true_iff. by setoid_rewrite contains_spec. }
  rewrite <- Hany. by destruct (any _ role_words).
Qed.

(** X11.  After a successful sign-up the next run shows the dashboard, the
    professor's exactly when the chosen role lowercases to "professor" (so
    "Researcher" and "Administrator" get the student's); the sidebar
    welcomes by the full name the form was submitted with and shows the
    titlecased role. *)
Theorem register_then_dashboard (f : RegisterForm.t) (name : string)
    (ss ss' : gmap string session_value) :
  register_form f ss = (st_success name, ss') ->
  exists sb d,
    script title NoEvent ss' = (Rendered (dashboard_view sb d), ss') /\
    (d = professor_dashboard <->
     PyStr.lower (RegisterForm.role f) = "professor") /\
    welcome sb = SStr (RegisterForm.full_name f) /\
    role_line sb = title (PyStr.lower (RegisterForm.role f)).
Proof.
  intros Hf.
  destruct (register_form_success _ _ _ _ Hf) as (Hin & He & Hr & Hi & Hn).
  unfold script. rewrite Hin. simpl.
  rewrite Hin. simpl. unfold main_dashboard. rewrite He, Hr, Hn, Hi.
  eexists _, _. split; [reflexivity |]. simpl. split; [| done].
  destruct (String.eqb_spec (PyStr.lower (RegisterForm.role f)) "professor");
    split; done.
Qed.

(** X12.  Logging out forgets the whole session, whatever it held: the
    logout run leaves the empty session, and the run after it shows the
    sign-in page with nothing in the session but [logged_in = False]. *)
Theorem logout_returns_to_login (ss : gmap string session_value)
    (v ue : session_value) (r : string) :
  ss !! "logged_in" = Some v -> value_truthy v = true ->
  ss !! "user_email" = Some ue -> ss !! "user_role" = Some (SStr r) ->
  script title ClickLogout ss = (Rerun, ∅) /\
  script title NoEvent ∅ =
    (Rendered (login_view None), {[ "logged_in" := SBool false ]}).
Proof.
  intros Hv Ht He Hr. split; [| done].
  unfold script. rewrite Hv. simpl. rewrite Hv, Ht. simpl.
  unfold main_dashboard. by rewrite He, Hr, logout_empty.
Qed.

(** X13.  The institution proposed by the sign-up form is empty exactly
    when the e-mail has no [@] or its domain has no dot. *)
Theorem detect_institution_empty (email : string) :
  detect_institution title email = EmptyString <->
  PyStr.contains "@" email = false \/
  PyStr.contains "." (email_domain email) = false.
Proof.
  unfold detect_institution. rewrite split_length_ge_2.
  destruct (PyStr.contains "@" email) eqn:Hat.
  - rewrite (contains_at_nonempty _ Hat). simpl.
    destruct (PyStr.contains "." (email_domain email)).
    + split; [| by intros [? | ?]].
      intros H. by apply str_app_nonempty in H.
    + split; auto.
  - rewrite andb_false_r. split; auto.
Qed.

(** X14.  When the domain ends in [label.tld], the proposed institution is
    the titlecased [label] followed by " University", whatever subdomains
    come before. *)
Theorem detect_institution_label (email sub label tld : string) :
  PyStr.contains "@" email = true ->
  PyStr.contains "." label = false ->
  PyStr.contains "." tld = false ->
  email_domain email = label +:+ "." +:+ tld \/
  email_domain email = sub +:+ "." +:+ label +:+ "." +:+ tld ->
  detect_institution title email = title label +:+ " University".
Proof.
  intros Hat Hl Ht Hd. unfold detect_institution.
  rewrite (contains_at_nonempty _ Hat), Hat. cbn [andb].
  assert (Hlt : PyStr.split "." (label +:+ "." +:+ tld) = [label; tld]).
  { change (label +:+ "." +:+ tld) with (label +:+ String "." tld).
    by rewrite split_app, (split_no_sep _ _ Hl), (split_no_sep _ _ Ht). }
  destruct Hd as [-> | ->].
  - by rewrite Hlt.
  - change (sub +:+ "." +:+ label +:+ "." +:+ tld)
      with (sub +:+ String "." (label +:+ "." +:+ tld)).
    rewrite split_app, Hlt. unfold item_second_last.
    rewrite length_app. change (List.length [label; tld]) with 2%nat.
    assert (Hle : (2 <=? List.length (PyStr.split "." sub) + 2)%nat = true)
      by (apply Nat.leb_le; lia).
    rewrite !Hle.
    replace (List.length (PyStr.split "." sub) + 2 - 2)%nat
      with (List.length (PyStr.split "." sub)) by lia.
    by rewrite list_lookup_middle.
Qed.

End FrontendFlows.

(** ** The further theorems at concrete inputs *)

Lemma accounts_are_permanent_witness :
  let account := Account.mk "Ada" "ssecret-pw" "student" "MIT" 0 in
  let rs :=
    [ @PostRegister DemoContext.ctx
        (UserRegister.mk "Eve" "ada@mit.edu" "other-pw" "professor" "Yale")
        "t"%char 5;
      @PostLogin DemoContext.ctx (UserLogin.mk "ada@mit.edu" "wrong");
      @PostRegister DemoContext.ctx
        (UserRegister.mk "Bob" "bob@ox.ac.uk" "bobs-pw" "student" "Oxford")
        "u"%char 6 ] in
  serve_all rs {[ "ada@mit.edu" := account ]} !! "ada@mit.edu" = Some account.
Proof.
  intros account rs.
  apply (@accounts_are_permanent DemoContext.ctx rs _ "ada@mit.edu" account).
  apply lookup_singleton_eq.
Defined.

Lemma stored_emails_pass_validator_witness :
  validate_edu_email "bob@ox.ac.uk" = true.
Proof.
  apply (@stored_emails_pass_validator DemoContext.ctx
           [ @PostRegister DemoContext.ctx
               (UserRegister.mk "Bob" "bob@ox.ac.uk" "bobs-pw" "student"
                  "Oxford") "u"%char 6 ] ∅).
  - intros e [a Ha]. by rewrite lookup_empty in Ha.
  - eexists. reflexivity.
Defined.

Lemma login_after_any_requests_witness :
  let user := UserRegister.mk "Ada" "ada@mit.edu" "secret-pw" "student" "MIT" in
  let rs :=
    [ @PostRegister DemoContext.ctx
        (UserRegister.mk "Eve" "ada@mit.edu" "other-pw" "professor" "Yale")
        "t"%char 5;
      @GetValidateEmail DemoContext.ctx "x@gmail.com" ] in
  let db' := serve_all rs (snd (@register DemoContext.ctx user "s"%char 0 ∅)) in
  @login DemoContext.ctx (UserLogin.mk "ada@mit.edu" "secret-pw") db' =
  (inr (LoginResponse.mk "Login successful" "ada@mit.edu" "student" "Ada"),
   db').
Proof.
  intros user rs.
  apply (@login_after_any_requests DemoContext.ctx ∅ user "s"%char 0 rs
           (RegisterResponse.mk "Registration successful" "ada@mit.edu"
              "student")).
  - exact demo_verifies_own_hash.
  - reflexivity.
Defined.

Lemma register_leaves_other_logins_witness :
  let account := Account.mk "Ada" "ssecret-pw" "student" "MIT" 0 in
  let db : gmap string Account.t := {[ "ada@mit.edu" := account ]} in
  let user := UserRegister.mk "Bob" "bob@ox.ac.uk" "bobs-pw" "student"
                "Oxford" in
  let login_data := UserLogin.mk "ada@mit.edu" "secret-pw" in
  fst (@login DemoContext.ctx login_data
         (snd (@register DemoContext.ctx user "u"%char 6 db)))
  = fst (@login DemoContext.ctx login_data db).
Proof.
  intros account db user login_data.
  apply (@register_leaves_other_logins DemoContext.ctx). discriminate.
Defined.

Lemma login_form_ignores_password_witness :
  login_form AsciiTitle.title "sam@mit.edu" "right" ∅
  = login_form AsciiTitle.title "sam@mit.edu" "wrong" ∅.
Proof. apply login_form_ignores_password; discriminate. Defined.

Lemma login_then_dashboard_witness :
  let ss' := snd (login_form AsciiTitle.title "stafford@mit.edu" "pw" ∅) in
  exists sb d,
    script AsciiTitle.title NoEvent ss' = (Rendered (dashboard_view sb d), ss') /\
    (d = professor_dashboard <->
     exists word,
       In word role_words /\
       PyStr.Occurs word (PyStr.lower "stafford@mit.edu")) /\
    welcome sb = default (SStr "stafford@mit.edu")
                   ((∅ : gmap string session_value) !! "full_name").
Proof.
  intros ss'.
  apply (login_then_dashboard AsciiTitle.title "stafford@mit.edu" "pw"
           "stafford@mit.edu" ∅ ss').
  reflexivity.
Defined.

Lemma register_then_dashboard_witness :
  let f := RegisterForm.mk "Rita" "rita@mit.edu" "long-enough" "long-enough"
             "Researcher"
             (detect_institution AsciiTitle.title "rita@mit.edu") true in
  let ss' := snd (register_form f ∅) in
  exists sb d,
    script AsciiTitle.title NoEvent ss' = (Rendered (dashboard_view sb d), ss') /\
    (d = professor_dashboard <->
     PyStr.lower (RegisterForm.role f) = "professor") /\
    welcome sb = SStr (RegisterForm.full_name f) /\
    role_line sb = AsciiTitle.title (PyStr.lower (RegisterForm.role f)).
Proof.
  intros f ss'.
  apply (register_then_dashboard AsciiTitle.title f "Rita" ∅ ss').
  reflexivity.
Defined.

Lemma logout_returns_to_login_witness :
  script AsciiTitle.title ClickLogout (demo_professor ∅) = (Rerun, ∅) /\
  script AsciiTitle.title NoEvent ∅ =
    (Rendered (login_view None), {[ "logged_in" := SBool false ]}).
Proof.
  apply (logout_returns_to_login AsciiTitle.title (demo_professor ∅)
           (SBool true) (SStr "prof.smith@harvard.edu") "professor");
    reflexivity.
Defined.

Lemma detect_institution_label_witness :
  detect_institution AsciiTitle.title "sam@cs.mit.edu"
  = AsciiTitle.title "mit" +:+ " University".
Proof.
  apply (detect_institution_label AsciiTitle.title "sam@cs.mit.edu" "cs"
           "mit" "edu"); try reflexivity.
  right. reflexivity.
Defined.

(** ** The setup script *)

Section ScaffoldFacts.

Import Scaffold.

Implicit Types fs : gmap (list string) node.

Lemma and_then_assoc (a b c : IO unit) fs :
  and_then (and_then a b) c fs = and_then a (and_then b c) fs.
Proof. unfold and_then. by destruct (a fs) as [[e | u] fs1]. Qed.

Lemma and_then_ext (a a' b b' : IO unit) fs :
  (forall fs1, a fs1 = a' fs1) -> (forall fs1, b fs1 = b' fs1) ->
  and_then a b fs = and_then a' b' fs.
Proof.
  intros Ha Hb. unfold and_then. rewrite Ha.
  by destruct (a' fs) as [[e | u] fs1].
Qed.

Lemma for_each_ext {A} (f g : A -> IO unit) (xs : list A) fs :
  (forall x fs1, f x fs1 = g x fs1) -> for_each f xs fs = for_each g xs fs.
Proof.
  intros Hfg. revert fs. induction xs as [|x xs IH]; intros fs; [done |].
  simpl. by apply and_then_ext.
Qed.

Lemma for_each_app {A} (f : A -> IO unit) (xs ys : list A) fs :
  for_each f (xs ++ ys)%list fs
  = and_then (for_each f xs) (for_each f ys) fs.
Proof.
  revert fs. induction xs as [|x xs IH]; intros fs; [done |].
  simpl. rewrite and_then_assoc. by apply and_then_ext.
Qed.

Lemma for_each_map {A B} (g : A -> B) (f : B -> IO unit) (xs : list A) fs :
  for_each f (map g xs) fs = for_each (fun x => f (g x)) xs fs.
Proof.
  revert fs. induction xs as [|x xs IH]; intros fs; [done |].
  simpl. by apply and_then_ext.
Qed.

Lemma for_each_flat_map {A B} (g : A -> list B) (f : B -> IO unit)
    (xs : list A) fs :
  for_each f (flat_map g xs) fs = for_each (fun x => for_each f (g x)) xs fs.
Proof.
  revert fs. induction xs as [|x xs IH]; intros fs; [done |].
  simpl. rewrite for_each_app. by apply and_then_ext.
Qed.

(** The nested loops make the calls of [mkdir_calls], in that order. *)
Lemma create_structure_of_flat (st : list (string * sub_dirs)) fs :
  create_structure_of st fs = for_each mkdir_call (mkdir_calls st) fs.
Proof.
  unfold create_structure_of, mkdir_calls.
  rewrite for_each_flat_map. apply for_each_ext.
  intros [main_dir [names | entries]] fs1; simpl.
  - apply and_then_ext; [done |]. intros fs2. by rewrite for_each_map.
  - apply and_then_ext; [done |]. intros fs2.
    rewrite for_each_flat_map. apply for_each_ext.
    intros [sub_dir sub_sub_dirs] fs3; simpl.
    apply and_then_ext; [done |]. intros fs4. by rewrite for_each_map.
Qed.

(** [mkdir(exist_ok=True)] under a parent that is a directory. *)
Lemma mkdir_ready (parents : bool) (x : string) (parent : list string) fs :
  dir_status fs parent = None ->
  mkdir parents true (x :: parent) fs =
  match fs !! (x :: parent) with
  | Some (File _) => (inl FileExistsError, fs)
  | _ => (inr tt, <[x :: parent := Dir]> fs)
  end.
Proof.
  intros Hp.
  assert (Hos : os_mkdir (x :: parent) fs =
                match fs !! (x :: parent) with
                | Some _ => (inl FileExistsError, fs)
                | None => (inr tt, <[x :: parent := Dir]> fs)
                end).
  { unfold os_mkdir. simpl. by rewrite Hp. }
  assert (Herr : on_os_error true (x :: parent) FileExistsError fs =
                 match fs !! (x :: parent) with
                 | Some Dir => (inr tt, <[x :: parent := Dir]> fs)
                 | _ => (inl FileExistsError, fs)
                 end).
  { unfold on_os_error, is_dir. simpl. rewrite Hp.
    destruct (fs !! (x :: parent)) as [[|c]|] eqn:E; simpl; [| done | done].
    by rewrite insert_id. }
  destruct parents; simpl; unfold mkdir_here; rewrite Hos;
    destruct (fs !! (x :: parent)) as [[|c]|]; try done; by rewrite Herr.
Qed.

Lemma dir_status_insert_dir fs (p d : list string) :
  dir_status fs d = None -> dir_status (<[p := Dir]> fs) d = None.
Proof.
  induction d as [|x d IH]; [done |]. simpl.
  destruct (dir_status fs d); [done |]. intros H. rewrite IH by done.
  destruct (decide (p = x :: d)) as [-> | Hne].
  - by rewrite lookup_insert_eq.
  - by rewrite lookup_insert_ne.
Qed.

Lemma dir_status_insert_other fs (p d : list string) (n : node) :
  dir_status fs d = None -> fs !! p <> Some Dir ->
  dir_status (<[p := n]> fs) d = None.
Proof.
  intros Hd Hp. induction d as [|x d IH]; [done |]. simpl in *.
  destruct (dir_status fs d); [done |]. rewrite IH by done.
  destruct (decide (p = x :: d)) as [-> | Hne].
  - destruct (fs !! (x :: d)) as [[|c]|]; done.
  - by rewrite lookup_insert_ne.
Qed.

Lemma with_dirs_lookup (ps : list (list string)) fs (q : list string) :
  with_dirs ps fs !! q = if bool_decide (q ∈ ps) then Some Dir else fs !! q.
Proof.
  unfold with_dirs. revert fs.
  induction ps as [|p ps IH]; intros fs; simpl; [done |].
  rewrite IH. destruct (decide (q ∈ ps)) as [Hin | Hin].
  - rewrite !bool_decide_eq_true_2; [done | by constructor | done].
  - rewrite (bool_decide_eq_false_2 (q ∈ ps)) by done.
    destruct (decide (q = p)) as [-> | Hne].
    + rewrite lookup_insert_eq, bool_decide_eq_true_2; [done | by constructor].
    + rewrite lookup_insert_ne by done.
      rewrite bool_decide_eq_false_2; [done |].
      by intros [? | ?]%elem_of_cons.
Qed.

Ltac head_call Hpf p x parent :=
  simpl in Hpf; destruct p as [|x parent]; [done |];
  apply andb_true_iff in Hpf as [Hpar Hpf].

Lemma parent_ready (made : list (list string)) (parent : list string) fs :
  bool_decide (parent = []) || bool_decide (parent ∈ made) = true ->
  (forall d, d ∈ made -> dir_status fs d = None) ->
  dir_status fs parent = None.
Proof.
  intros [H | H]%orb_true_iff Hmade.
  - by apply bool_decide_eq_true_1 in H as ->.
  - apply Hmade. by apply bool_decide_eq_true_1 in H.
Qed.

Lemma made_step (made : list (list string)) (x : string)
    (parent : list string) fs :
  dir_status fs parent = None ->
  (forall d, d ∈ made -> dir_status fs d = None) ->
  forall d, d ∈ (x :: parent) :: made ->
            dir_status (<[x :: parent := Dir]> fs) d = None.
Proof.
  intros Hp Hmade d [-> | Hd]%elem_of_cons.
  - simpl. rewrite (dir_status_insert_dir _ _ _ Hp).
    by rewrite lookup_insert_eq.
  - by apply dir_status_insert_dir, Hmade.
Qed.

(** The calls succeed when no path is a file, and make every path a
    directory. *)
Lemma run_calls_ok (calls : list (bool * list string)) :
  forall (made : list (list string)) fs,
    parents_first made calls.*2 = true ->
    (forall d, d ∈ made -> dir_status fs d = None) ->
    (forall p c, p ∈ calls.*2 -> fs !! p <> Some (File c)) ->
    for_each mkdir_call calls fs = (inr tt, with_dirs calls.*2 fs) /\
    (forall d, d ∈ made \/ d ∈ calls.*2 ->
               dir_status (with_dirs calls.*2 fs) d = None).
Proof.
  induction calls as [|[b p] calls IH]; intros made fs Hpf Hmade Hnofile.
  - split; [done |]. intros d [Hd | Hd]; [by apply Hmade | by inversion Hd].
  - head_call Hpf p x parent.
    pose proof (parent_ready _ _ _ Hpar Hmade) as Hp.
    assert (Hstep : mkdir_call (b, x :: parent) fs
                    = (inr tt, <[x :: parent := Dir]> fs)).
    { unfold mkdir_call. simpl. rewrite (mkdir_ready _ _ _ _ Hp).
      destruct (fs !! (x :: parent)) as [[|c]|] eqn:E; try done.
      destruct (Hnofile (x :: parent) c); [by constructor | done]. }
    destruct (IH ((x :: parent) :: made) (<[x :: parent := Dir]> fs))
      as [Hrun Hdirs]; [done | by apply made_step | |].
    { intros q c Hq. destruct (decide (q = x :: parent)) as [-> | Hne].
      - by rewrite lookup_insert_eq.
      - rewrite lookup_insert_ne by done. apply Hnofile. by constructor. }
    split.
    + simpl. unfold and_then. by rewrite Hstep.
    + intros d [Hd | [-> | Hd]%elem_of_cons]; apply Hdirs.
      * left. by constructor.
      * left. by constructor.
      * by right.
Qed.

(** The calls stop with [FileExistsError] when some path is a file. *)
Lemma run_calls_blocked (calls : list (bool * list string)) :
  forall (made : list (list string)) fs (q : list string) (c : content),
    parents_first made calls.*2 = true ->
    (forall d, d ∈ made -> dir_status fs d = None) ->
    q ∈ calls.*2 -> fs !! q = Some (File c) ->
    fst (for_each mkdir_call calls fs) = inl FileExistsError.
Proof.
  induction calls as [|[b p] calls IH]; intros made fs q c Hpf Hmade Hq Hfile.
  - by inversion Hq.
  - head_call Hpf p x parent.
    pose proof (parent_ready _ _ _ Hpar Hmade) as Hp.
    simpl. unfold and_then, mkdir_call at 1. simpl.
    rewrite (mkdir_ready _ _ _ _ Hp).
    assert (Hgo : fs !! (x :: parent) <> Some (File c) ->
                  fst (for_each mkdir_call calls (<[x :: parent := Dir]> fs))
                  = inl FileExistsError).
    { intros Hnf. assert (Hne : x :: parent <> q) by congruence.
      apply (IH ((x :: parent) :: made) _ q c);
        [done | by apply made_step | | by rewrite lookup_insert_ne].
      simpl in Hq. apply elem_of_cons in Hq as [? | ?]; done. }
    destruct (fs !! (x :: parent)) as [[|c']|] eqn:E; [| done |];
      by apply Hgo.
Qed.

(** Whatever happens, the calls leave every entry as it was. *)
Lemma run_calls_keeps (calls : list (bool * list string)) :
  forall (made : list (list string)) fs (q : list string) (n : node),
    parents_first made calls.*2 = true ->
    (forall d, d ∈ made -> dir_status fs d = None) ->
    fs !! q = Some n ->
    snd (for_each mkdir_call calls fs) !! q = Some n.
Proof.
  induction calls as [|[b p] calls IH]; intros made fs q n Hpf Hmade Hq.
  - done.
  - head_call Hpf p x parent.
    pose proof (parent_ready _ _ _ Hpar Hmade) as Hp.
    simpl. unfold and_then, mkdir_call at 1. simpl.
    rewrite (mkdir_ready _ _ _ _ Hp).
    destruct (fs !! (x :: parent)) as [[|c']|] eqn:E; [| done |].
    all: apply (IH ((x :: parent) :: made)); [done | by apply made_step |].
    + by rewrite insert_id.
    + rewrite lookup_insert_ne; [done | congruence].
Qed.

End ScaffoldFacts.

Section ScaffoldFiles.

Import Scaffold.

Implicit Types fs : gmap (list string) node.

Lemma write_text_ready (x : string) (parent : list string) (t : template) fs :
  dir_status fs parent = None ->
  write_text (x :: parent) t fs =
  match fs !! (x :: parent) with
  | Some Dir => (inl IsADirectoryError, fs)
  | _ => (inr tt, <[x :: parent := File (Template t)]> fs)
  end.
Proof. intros Hp. unfold write_text. simpl. by rewrite Hp. Qed.

Lemma with_files_lookup_other (files : list (list string * template)) fs
    (q : list string) :
  q ∉ files.*1 -> with_files files fs !! q = fs !! q.
Proof.
  unfold with_files. revert fs.
  induction files as [|[p t] files IH]; intros fs Hq; simpl; [done |].
  simpl in Hq. apply not_elem_of_cons in Hq as [Hne Hq].
  rewrite IH by done. by rewrite lookup_insert_ne.
Qed.

Lemma with_files_lookup_in (files : list (list string * template)) fs
    (p : list string) (t : template) :
  NoDup files.*1 -> (p, t) ∈ files ->
  with_files files fs !! p = Some (File (Template t)).
Proof.
  unfold with_files. revert fs.
  induction files as [|[p0 t0] files IH]; intros fs Hnd Hin; simpl.
  - by inversion Hin.
  - simpl in Hnd. apply NoDup_cons in Hnd as [Hp0 Hnd].
    apply elem_of_cons in Hin as [[= -> ->] | Hin].
    + pose proof (with_files_lookup_other files
                    (<[p0 := File (Template t0)]> fs) p0 Hp0) as Hl.
      unfold with_files in Hl. rewrite Hl. apply lookup_insert_eq.
    + by apply IH.
Qed.

Lemma with_dirs_id (ps : list (list string)) fs :
  (forall p, p ∈ ps -> fs !! p = Some Dir) -> with_dirs ps fs = fs.
Proof.
  intros H. apply map_eq. intros q. rewrite with_dirs_lookup.
  case_bool_decide; [by rewrite H | done].
Qed.

Lemma with_files_id (files : list (list string * template)) fs :
  (forall f, f ∈ files -> fs !! f.1 = Some (File (Template f.2))) ->
  with_files files fs = fs.
Proof.
  unfold with_files. revert fs.
  induction files as [|f files IH]; intros fs H; simpl; [done |].
  rewrite insert_id by (apply H; by constructor).
  apply IH. intros g Hg. apply H. by constructor.
Qed.

(** The writes succeed when every parent is a directory and no path is
    one. *)
Lemma run_writes_ok (files : list (list string * template)) :
  forall fs,
    (forall f, f ∈ files -> f.1 <> [] /\ dir_status fs (tail f.1) = None) ->
    (forall f, f ∈ files -> fs !! f.1 <> Some Dir) ->
    for_each write_file files fs = (inr tt, with_files files fs).
Proof.
  induction files as [|[p t] files IH]; intros fs Hready Hnodir; [done |].
  destruct (Hready (p, t)) as [Hne Hp]; [by constructor |].
  destruct p as [|x parent]; [done |]. simpl in Hp.
  pose proof (Hnodir (x :: parent, t)) as Hnd. simpl in Hnd.
  simpl. unfold and_then, write_file at 1. simpl.
  rewrite (write_text_ready _ _ _ _ Hp).
  assert (Hrest : for_each write_file files
                    (<[x :: parent := File (Template t)]> fs)
                  = (inr tt, with_files files
                               (<[x :: parent := File (Template t)]> fs))).
  { apply IH.
    - intros f Hf. destruct (Hready f) as [Hf1 Hf2]; [by constructor |].
      split; [done |]. apply dir_status_insert_other; [done |].
      apply Hnd. by constructor.
    - intros f Hf. destruct (decide (x :: parent = f.1)) as [<- | Hnef].
      + by rewrite lookup_insert_eq.
      + rewrite lookup_insert_ne by done. apply Hnodir. by constructor. }
  destruct (fs !! (x :: parent)) as [[|c]|] eqn:E; [| done | done].
  destruct Hnd; [by constructor | done].
Qed.

(** The writes stop with [IsADirectoryError] when some path is a
    directory. *)
Lemma run_writes_blocked (files : list (list string * template)) :
  forall fs (g : list string * template),
    (forall f, f ∈ files -> f.1 <> [] /\ dir_status fs (tail f.1) = None) ->
    g ∈ files -> fs !! g.1 = Some Dir ->
    fst (for_each write_file files fs) = inl IsADirectoryError.
Proof.
  induction files as [|[p t] files IH]; intros fs g Hready Hg Hdir.
  - by inversion Hg.
  - destruct (Hready (p, t)) as [Hne Hp]; [by constructor |].
    destruct p as [|x parent]; [done |]. simpl in Hp.
    simpl. unfold and_then, write_file at 1. simpl.
    rewrite (write_text_ready _ _ _ _ Hp).
    assert (Hgo : fs !! (x :: parent) <> Some Dir ->
                  fst (for_each write_file files
                         (<[x :: parent := File (Template t)]> fs))
                  = inl IsADirectoryError).
    { intros Hnd. assert (Hneq : x :: parent <> g.1) by congruence.
      apply (IH _ g).
      - intros f Hf. destruct (Hready f) as [Hf1 Hf2]; [by constructor |].
        split; [done |]. by apply dir_status_insert_other.
      - apply elem_of_cons in Hg as [-> | Hg]; done.
      - by rewrite lookup_insert_ne. }
    destruct (fs !! (x :: parent)) as [[|c]|] eqn:E; [done | |];
      by apply Hgo.
Qed.

(** [create_project] is [create_structure] followed by the six writes. *)
Lemma create_project_flat fs :
  create_project fs
  = and_then create_structure (for_each write_file project_files) fs.
Proof.
  unfold create_project. apply and_then_ext; [done |]. intros fs1.
  unfold create_requirements, create_environment_files, create_backend_files,
    create_frontend_files, project_files, write_file. simpl.
  unfold and_then.
  repeat match goal with
         | |- context [write_text ?p ?t ?f] =>
             destruct (write_text p t f) as [[? | []] ?]; try done
         end.
Qed.

Lemma project_dirs_in_order : parents_first [] project_dirs = true.
Proof. reflexivity. Qed.

Lemma project_files_fresh :
  forall f, f ∈ project_files -> f.1 ∉ project_dirs.
Proof.
  intros f Hf. unfold project_files in Hf.
  repeat (apply elem_of_cons in Hf as [-> | Hf];
          [by apply (bool_decide_unpack _) |]).
  by inversion Hf.
Qed.

Lemma project_files_parents (f : list string * template) :
  f ∈ project_files ->
  f.1 <> [] /\ (tail f.1 = [] \/ tail f.1 ∈ project_dirs).
Proof.
  intros Hf. unfold project_files in Hf.
  repeat (apply elem_of_cons in Hf as [-> | Hf];
          [split; [done |];
           first [ by left | right; by apply (bool_decide_unpack _) ] |]).
  by inversion Hf.
Qed.

Lemma project_files_nodup : NoDup project_files.*1.
Proof. by apply (bool_decide_unpack _). Qed.

End ScaffoldFiles.

Section ScaffoldRuns.

Import Scaffold.

Implicit Types fs : gmap (list string) node.

Lemma create_structure_closed fs :
  (forall p c, p ∈ project_dirs -> fs !! p <> Some (File c)) ->
  create_structure fs = (inr tt, with_dirs project_dirs fs) /\
  (forall d, d ∈ project_dirs ->
             dir_status (with_dirs project_dirs fs) d = None).
Proof.
  intros Hnofile. unfold create_structure.
  rewrite create_structure_of_flat.
  destruct (run_calls_ok (mkdir_calls structure) [] fs) as [Hrun Hdirs].
  - exact project_dirs_in_order.
  - intros d Hd. by inversion Hd.
  - exact Hnofile.
  - split; [exact Hrun |]. intros d Hd. apply Hdirs. by right.
Qed.

Lemma create_structure_blocked fs (p : list string) (c : content) :
  p ∈ project_dirs -> fs !! p = Some (File c) ->
  fst (create_structure fs) = inl FileExistsError.
Proof.
  intros Hp Hfile. unfold create_structure.
  rewrite create_structure_of_flat.
  apply (run_calls_blocked (mkdir_calls structure) [] fs p c).
  - exact project_dirs_in_order.
  - intros d Hd. by inversion Hd.
  - exact Hp.
  - exact Hfile.
Qed.

Lemma is_file_true fs (p : list string) :
  is_file fs p = true <-> exists c, fs !! p = Some (File c).
Proof.
  unfold is_file. destruct (fs !! p) as [[|c]|]; split;
    try done; try (by intros [? ?]). intros _. by exists c.
Qed.

(** Either some path of the list is a file, or none is. *)
Lemma file_among (ps : list (list string)) fs :
  (exists p c, p ∈ ps /\ fs !! p = Some (File c)) \/
  (forall p c, p ∈ ps -> fs !! p <> Some (File c)).
Proof.
  destruct (existsb (is_file fs) ps) eqn:E.
  - left. apply existsb_exists in E as (p & Hin & Hf).
    apply is_file_true in Hf as [c Hc]. exists p, c.
    split; [by apply list_elem_of_In | done].
  - right. intros p c Hin Hc.
    assert (existsb (is_file fs) ps = true); [| congruence].
    apply existsb_exists. exists p.
    split; [by apply list_elem_of_In |]. apply is_file_true. by exists c.
Qed.

Lemma dir_among (files : list (list string * template)) fs :
  (exists f, f ∈ files /\ fs !! f.1 = Some Dir) \/
  (forall f, f ∈ files -> fs !! f.1 <> Some Dir).
Proof.
  induction files as [|f files [(g & Hg & Hd) | IH]].
  - right. intros f Hf. by inversion Hf.
  - left. exists g. split; [by constructor | done].
  - destruct (fs !! f.1) as [[|c]|] eqn:E.
    + left. exists f. split; [by constructor | done].
    + right. intros g [-> | Hg]%elem_of_cons; [congruence | by apply IH].
    + right. intros g [-> | Hg]%elem_of_cons; [congruence | by apply IH].
Qed.

Lemma writes_ready fs :
  (forall d, d ∈ project_dirs -> dir_status fs d = None) ->
  forall f, f ∈ project_files ->
            f.1 <> [] /\ dir_status fs (tail f.1) = None.
Proof.
  intros Hdirs f Hf.
  destruct (project_files_parents f Hf) as [Hne [-> | Hin]];
    (split; [done |]); [done | by apply Hdirs].
Qed.

Lemma create_project_closed fs :
  (forall p c, p ∈ project_dirs -> fs !! p <> Some (File c)) ->
  (forall f, f ∈ project_files -> fs !! f.1 <> Some Dir) ->
  create_project fs
  = (inr tt, with_files project_files (with_dirs project_dirs fs)).
Proof.
  intros Hnofile Hnodir. rewrite create_project_flat. unfold and_then.
  destruct (create_structure_closed fs Hnofile) as [-> Hdirs].
  apply run_writes_ok.
  - by apply writes_ready.
  - intros f Hf. rewrite with_dirs_lookup.
    rewrite bool_decide_eq_false_2 by (by apply project_files_fresh).
    by apply Hnodir.
Qed.

Lemma create_project_inv fs :
  fst (create_project fs) = inr tt ->
  (forall p c, p ∈ project_dirs -> fs !! p <> Some (File c)) /\
  (forall f, f ∈ project_files -> fs !! f.1 <> Some Dir).
Proof.
  rewrite create_project_flat. unfold and_then. intros Hok.
  destruct (file_among project_dirs fs) as [(p & c & Hp & Hc) | Hnofile].
  { pose proof (create_structure_blocked fs p c Hp Hc) as Hb.
    destruct (create_structure fs) as [[e | u] fs1]; simpl in *; congruence. }
  split; [done |].
  destruct (create_structure_closed fs Hnofile) as [Hrun Hdirs].
  rewrite Hrun in Hok.
  destruct (dir_among project_files fs) as [(g & Hg & Hd) | Hnodir]; [| done].
  rewrite (run_writes_blocked project_files _ g) in Hok; [done | | done |].
  - by apply writes_ready.
  - rewrite with_dirs_lookup. by case_bool_decide.
Qed.

(** X16.  On a file system where none of the twelve project directories
    is taken by a file, [create_structure] succeeds; afterwards each of the
    twelve is a directory and every other path is as it was. *)
Theorem create_structure_makes_dirs fs :
  (forall p c, p ∈ project_dirs -> fs !! p <> Some (File c)) ->
  exists fs',
    create_structure fs = (inr tt, fs') /\
    forall q, fs' !! q = if bool_decide (q ∈ project_dirs) then Some Dir
                         else fs !! q.
Proof.
  intros Hnofile. exists (with_dirs project_dirs fs). split.
  - by apply create_structure_closed.
  - intros q. apply with_dirs_lookup.
Qed.

(** X17.  [create_structure] succeeds exactly when none of the project
    directories is taken by a file, and when it fails the exception is
    [FileExistsError]. *)
Theorem create_structure_success_iff fs :
  (fst (create_structure fs) = inr tt <->
   forall p c, p ∈ project_dirs -> fs !! p <> Some (File c)) /\
  (fst (create_structure fs) = inr tt \/
   fst (create_structure fs) = inl FileExistsError).
Proof.
  destruct (file_among project_dirs fs) as [(p & c & Hp & Hc) | Hnofile].
  - pose proof (create_structure_blocked fs p c Hp Hc) as Hb.
    split; [| by right]. split.
    + congruence.
    + intros H. by destruct (H p c Hp).
  - destruct (create_structure_closed fs Hnofile) as [Hrun _].
    rewrite Hrun. split; [| by left]. done.
Qed.

(** X18.  [create_structure] never removes or replaces anything: every
    entry of the file system is still there afterwards, unchanged, whether
    the run succeeds or stops at an exception. *)
Theorem create_structure_keeps_entries fs (q : list string) (n : node) :
  fs !! q = Some n -> snd (create_structure fs) !! q = Some n.
Proof.
  intros Hq. unfold create_structure. rewrite create_structure_of_flat.
  apply (run_calls_keeps (mkdir_calls structure) [] fs q n).
  - exact project_dirs_in_order.
  - intros d Hd. by inversion Hd.
  - exact Hq.
Qed.

(** X19.  Running the five creation steps of [main] a second time, after a
    run that succeeded, succeeds again and changes nothing. *)
Theorem create_project_idempotent fs :
  fst (create_project fs) = inr tt ->
  create_project (snd (create_project fs))
  = (inr tt, snd (create_project fs)).
Proof.
  intros Hok. destruct (create_project_inv fs Hok) as [Hnofile Hnodir].
  rewrite (create_project_closed fs Hnofile Hnodir). cbn [snd].
  set (fs2 := with_files project_files (with_dirs project_dirs fs)).
  assert (Hd : forall p, p ∈ project_dirs -> fs2 !! p = Some Dir).
  { intros p Hp. subst fs2. rewrite with_files_lookup_other.
    - rewrite with_dirs_lookup. by rewrite bool_decide_eq_true_2.
    - intros (f & -> & Hf)%list_elem_of_fmap.
      by apply (project_files_fresh f Hf). }
  assert (Hf : forall f, f ∈ project_files ->
                         fs2 !! f.1 = Some (File (Template f.2))).
  { intros [p t] Hin. subst fs2.
    apply with_files_lookup_in; [exact project_files_nodup | done]. }
  clearbody fs2. rewrite (create_project_closed fs2).
  - by rewrite (with_dirs_id _ _ Hd), (with_files_id _ _ Hf).
  - intros p c Hp. by rewrite (Hd p Hp).
  - intros f Hin. by rewrite (Hf f Hin).
Qed.

(** X20.  The five creation steps succeed exactly when no project directory
    is taken by a file and no project file by a directory.  Then every
    project directory is a directory, each of the six files holds the
    script's text, whatever it held before, and nothing else has
    changed. *)
Theorem create_project_result fs :
  (fst (create_project fs) = inr tt <->
   (forall p c, p ∈ project_dirs -> fs !! p <> Some (File c)) /\
   (forall f, f ∈ project_files -> fs !! f.1 <> Some Dir)) /\
  (fst (create_project fs) = inr tt ->
   let fs' := snd (create_project fs) in
   (forall p, p ∈ project_dirs -> fs' !! p = Some Dir) /\
   (forall p t, (p, t) ∈ project_files ->
                fs' !! p = Some (File (Template t))) /\
   (forall q, q ∉ project_dirs -> q ∉ project_files.*1 ->
              fs' !! q = fs !! q)).
Proof.
  split.
  - split; [apply create_project_inv |].
    intros [Hnofile Hnodir].
    by rewrite (create_project_closed fs Hnofile Hnodir).
  - intros Hok. destruct (create_project_inv fs Hok) as [Hnofile Hnodir].
    rewrite (create_project_closed fs Hnofile Hnodir). cbn [snd].
    split; [| split].
    + intros p Hp. rewrite with_files_lookup_other.
      * rewrite with_dirs_lookup. by rewrite bool_decide_eq_true_2.
      * intros (f & -> & Hf)%list_elem_of_fmap.
        by apply (project_files_fresh f Hf).
    + intros p t Hin.
      apply with_files_lookup_in; [exact project_files_nodup | done].
    + intros q Hq1 Hq2. rewrite with_files_lookup_other by done.
      rewrite with_dirs_lookup. by rewrite bool_decide_eq_false_2.
Qed.

(** X21.  The file-writing steps depend on [create_structure] having run:
    where [backend/app] cannot be reached as a directory,
    [create_backend_files] raises the error of that path and writes
    nothing, and likewise [create_frontend_files] for [streamlit_app]. *)
Theorem file_steps_need_structure fs (e : OSError) :
  (dir_status fs ["app"; "backend"] = Some e ->
   create_backend_files fs = (inl e, fs)) /\
  (dir_status fs ["streamlit_app"] = Some e ->
   create_frontend_files fs = (inl e, fs)).
Proof.
  split; intros He.
  - unfold create_backend_files, and_then, write_text.
    cbn [tail]. by rewrite He.
  - unfold create_frontend_files, write_text. cbn [tail]. by rewrite He.
Qed.

End ScaffoldRuns.

(** The twelve directories, spelled out (innermost component first). *)
Example project_dirs_listed :
  Scaffold.project_dirs =
  [ ["streamlit_app"];
    ["pages"; "streamlit_app"];
    ["components"; "streamlit_app"];
    ["utils"; "streamlit_app"];
    ["backend"];
    ["app"; "backend"];
    ["models"; "backend"];
    ["services"; "backend"];
    ["tests"; "backend"];
    ["infrastructure"];
    ["database"];
    ["docs"] ].
Proof. reflexivity. Qed.

(** ** What the sign-in page finds in the session *)

Section SessionPrivacy.

Variable title : string -> string.

Lemma script_tidy (ev : event) (ss : gmap string session_value) :
  session_tidy ss -> session_tidy (snd (script title ev ss)).
Proof.
  assert (Hout : session_tidy (snd (script title ev {[ "logged_in" := SBool false ]}))).
  { unfold script.
    rewrite bool_decide_eq_true_2
      by (rewrite lookup_singleton_eq; by eexists).
    rewrite lookup_singleton_eq. simpl.
    destruct ev as [| email password | f | | |]; simpl.
    - right. by left.
    - destruct (login_form title email password _) as [[e | e] ss'] eqn:Hl;
        simpl.
      + rewrite (login_form_failure _ _ _ _ _ _ Hl). right. by left.
      + destruct (login_form_success _ _ _ _ _ _ Hl) as (Hin & _).
        right. right. by exists (SBool true).
    - destruct (register_form f _) as [[e | name] ss'] eqn:Hf; simpl.
      + pose proof (register_form_error_keeps f
                      {[ "logged_in" := SBool false ]} e) as Hk.
        rewrite Hf in Hk. simpl in Hk. rewrite Hk by done. right. by left.
      + destruct (register_form_success _ _ _ _ Hf) as (Hin & _).
        right. right. by exists (SBool true).
    - right. right. exists (SBool true).
      split; [| done]. unfold demo_professor. by simplify_map_eq.
    - right. right. exists (SBool true).
      split; [| done]. unfold demo_student. by simplify_map_eq.
    - right. by left. }
  intros [-> | [-> | (v & Hv & Ht)]].
  - unfold script in *.
    rewrite bool_decide_eq_false_2
      by (rewrite lookup_empty; by intros [? ?]).
    rewrite bool_decide_eq_true_2 in Hout
      by (rewrite lookup_singleton_eq; by eexists).
    by rewrite insert_empty.
  - exact Hout.
  - unfold script.
    rewrite bool_decide_eq_true_2 by (by eexists).
    rewrite Hv, Ht. simpl. unfold main_dashboard.
    assert (Hin : session_tidy ss) by (right; right; by exists v).
    destruct (ss !! "user_email"); [| done].
    destruct (ss !! "user_role") as [[b | r]|]; [done | | done].
    destruct ev; simpl; try done.
    left. apply logout_empty.
Qed.

(** X15.  From a fresh session, whatever the interactions, a session that
    is not logged in holds nothing of a previous user: it is empty or holds
    only [logged_in = False]. *)
Theorem logged_out_session_is_clean (evs : list event) :
  let ss := play title evs ∅ in
  (ss !! "logged_in" = None -> ss = ∅) /\
  (forall v, ss !! "logged_in" = Some v -> value_truthy v = false ->
             ss = {[ "logged_in" := SBool false ]}).
Proof.
  intros ss.
  assert (Ht : session_tidy ss).
  { subst ss. unfold play.
    apply (foldl_invariant (fun s ev => snd (script title ev s)) session_tidy).
    - intros s e Hs. by apply script_tidy.
    - by left. }
  destruct Ht as [-> | [-> | (v & Hv & Ht)]].
  - split; [done |]. intros v. by rewrite lookup_empty.
  - split; [| done]. by rewrite lookup_singleton_eq.
  - split; [congruence |]. intros v' Hv' Hf. congruence.
Qed.

End SessionPrivacy.

(** ** The setup script at concrete file systems *)

Lemma create_structure_makes_dirs_witness :
  let fs : gmap (list string) Scaffold.node :=
    {[ ["backend"] := Scaffold.Dir;
       [".env"] := Scaffold.File (Scaffold.UserText "KEY=1") ]} in
  exists fs',
    Scaffold.create_structure fs = (inr tt, fs') /\
    forall q, fs' !! q = if bool_decide (q ∈ Scaffold.project_dirs)
                         then Some Scaffold.Dir else fs !! q.
Proof.
  intros fs. apply create_structure_makes_dirs.
  intros p c Hp Hc. unfold Scaffold.project_dirs in Hp. simpl in Hp.
  repeat (apply elem_of_cons in Hp as [-> | Hp];
          [vm_compute in Hc; discriminate |]).
  by inversion Hp.
Defined.

Lemma create_structure_keeps_entries_witness :
  let fs : gmap (list string) Scaffold.node :=
    {[ ["backend"] := Scaffold.File (Scaffold.UserText "notes");
       [".env"] := Scaffold.File (Scaffold.UserText "KEY=1") ]} in
  snd (Scaffold.create_structure fs) !! [".env"]
  = Some (Scaffold.File (Scaffold.UserText "KEY=1")).
Proof.
  intros fs. apply create_structure_keeps_entries. reflexivity.
Defined.

Lemma create_project_idempotent_witness :
  let fs : gmap (list string) Scaffold.node :=
    {[ [".env"] := Scaffold.File (Scaffold.UserText "KEY=1") ]} in
  Scaffold.create_project (snd (Scaffold.create_project fs))
  = (inr tt, snd (Scaffold.create_project fs)).
Proof.
  intros fs. apply create_project_idempotent. reflexivity.
Defined.
